(** * md2docx: the line preprocessor, the table-cell normalizer and the
      driver of src/md2docx.py, embedded and verified.

    Layout
    - [Py]     the fragment of Python's [str] the script uses
    - [Re]     a backtracking matcher for the fragment of [re] the script uses
    - [Pre]    [preprocess_markdown] (lines 35-82)
    - [Docx]   the python-docx objects touched by [clean_table_cells]
    - [Clean]  [clean_table_cells] (lines 107-149)
    - [Main]   [main] (lines 151-185) over an explicit world, with exceptions
    followed by the theorems, one block per component. *)

From Stdlib Require Import NArith Ascii String.
From stdpp Require Import base list strings gmap.

(* ===================================================================== *)
(** ** Python strings *)
(* ===================================================================== *)

Module Py.

(** A Python [str] is a sequence of Unicode code points; [len] counts code
    points, so the full-width colon of line 71 is one character. *)
Definition char := N.
Definition str := list char.

(** ASCII literals of the source, written as Rocq strings. *)
Definition lit (s : string) : str := N_of_ascii <$> list_ascii_of_string s.
Arguments lit s%_string.

Definition nl : char := 10%N.
Definition space : char := 32%N.
Definition dollar : char := 36%N.
Definition comma : char := 44%N.
(** U+FF1A, the character between the quotes of ["：" in cur]. *)
Definition fullwidth_colon : char := 65306%N.

(** CPython's [Py_UNICODE_ISSPACE]: the characters removed by an
    argument-less [strip()] and, for [str] patterns, matched by [\s]. *)
Definition isspace (c : char) : bool :=
  ((9 <=? c) && (c <=? 13) || (28 <=? c) && (c <=? 32)
   || (c =? 133) || (c =? 160) || (c =? 5760)
   || (8192 <=? c) && (c <=? 8202)
   || (c =? 8232) || (c =? 8233) || (c =? 8239) || (c =? 8287)
   || (c =? 12288))%N.

Fixpoint drop_while (p : char → bool) (s : str) : str :=
  match s with
  | [] => []
  | c :: s' => if p c then drop_while p s' else s
  end.

Definition lstrip_by (p : char → bool) (s : str) : str := drop_while p s.
Definition rstrip_by (p : char → bool) (s : str) : str :=
  reverse (drop_while p (reverse s)).

(** [s.strip()] *)
Definition strip (s : str) : str := rstrip_by isspace (lstrip_by isspace s).

(** [s.rstrip("\n")]: every trailing newline goes. *)
Definition rstrip_nl (s : str) : str := rstrip_by (N.eqb nl) s.

(** [s.startswith(p)] *)
Fixpoint startswith (s p : str) {struct p} : bool :=
  match p, s with
  | [], _ => true
  | _ :: _, [] => false
  | a :: p', c :: s' => (a =? c)%N && startswith s' p'
  end.

(** [s.startswith((p1, ..., pn))] *)
Definition startswith_any (s : str) (ps : list str) : bool :=
  existsb (startswith s) ps.

(** [s.endswith(p)] *)
Definition endswith (s p : str) : bool := startswith (reverse s) (reverse p).

(** [c in s] for a one-character [c] *)
Definition contains (c : char) (s : str) : bool := existsb (N.eqb c) s.

(** [s == ""] *)
Definition is_empty (s : str) : bool :=
  match s with [] => true | _ :: _ => false end.

(** [sep.join(parts)] *)
Fixpoint join (sep : str) (parts : list str) : str :=
  match parts with
  | [] => []
  | [p] => p
  | p :: rest => p ++ sep ++ join sep rest
  end.

(** [f.readlines()] on the decoded text of a file: the lines, each with
    the newline that ends it. *)
Fixpoint readlines_from (acc : str) (s : str) : list str :=
  match s with
  | [] => if is_empty acc then [] else [reverse acc]
  | c :: s' =>
      if (c =? nl)%N
      then reverse (c :: acc) :: readlines_from [] s'
      else readlines_from (c :: acc) s'
  end.

Definition readlines (s : str) : list str := readlines_from [] s.

End Py.

Import Py.

(* ===================================================================== *)
(** ** Regular expressions *)
(* ===================================================================== *)

Module Re.

(** The one-character atoms of the two patterns: an escaped literal, [\s]
    and [.] (every character but the newline, no [DOTALL] flag is given). *)
Inductive cls := Lit (c : char) | Space | Dot.

Definition in_cls (k : cls) (c : char) : bool :=
  match k with
  | Lit a => (a =? c)%N
  | Space => isspace c
  | Dot => negb (c =? nl)%N
  end.

(** A pattern is a sequence of items; [Open] and [Close] are the
    parentheses of capturing group 1. [Star] and [Plus] are greedy. *)
Inductive item :=
| Bol | Eol
| One (k : cls) | Star (k : cls) | Plus (k : cls)
| Open | Close.

Definition pattern := list item.

(** The input left at each parenthesis of the group, once passed. *)
Record marks := Marks { m_open : option str; m_close : option str }.

Section Exec.
(** The string [match] was called on. *)
Variable whole : str.

(** Greedy repetition: take as many characters as the class allows, and
    give one back at a time while the rest of the pattern fails. *)
Fixpoint greedy (p : char → bool) (k : str → option marks) (s : str)
  : option marks :=
  match s with
  | [] => k []
  | c :: s' =>
      if p c
      then match greedy p k s' with
           | Some m => Some m
           | None => k s
           end
      else k s
  end.

Fixpoint exec (prog : pattern) (m : marks) (s : str) : option marks :=
  match prog with
  | [] => Some m
  | Bol :: q =>
      if bool_decide (length s = length whole) then exec q m s else None
  | Eol :: q =>
      (* the end of the string, or just before a newline that ends it *)
      match s with
      | [] => exec q m s
      | [c] => if (c =? nl)%N then exec q m s else None
      | _ => None
      end
  | One k :: q =>
      match s with
      | c :: s' => if in_cls k c then exec q m s' else None
      | [] => None
      end
  | Star k :: q => greedy (in_cls k) (exec q m) s
  | Plus k :: q =>
      match s with
      | c :: s' =>
          if in_cls k c then greedy (in_cls k) (exec q m) s' else None
      | [] => None
      end
  | Open :: q => exec q (Marks (Some s) (m_close m)) s
  | Close :: q => exec q (Marks (m_open m) (Some s)) s
  end.
End Exec.

(** [pattern.match(s)]: anchored at the start of [s], free at its end. *)
Definition re_match (p : pattern) (s : str) : option marks :=
  exec s p (Marks None None) s.

(** [m.group(1)]; the group takes part in every match of the patterns
    below, so the empty default is never seen. *)
Definition group1 (m : marks) : str :=
  match m_open m, m_close m with
  | Some o, Some c => take (length o - length c) o
  | _, _ => []
  end.

End Re.

Import Re.

(* ===================================================================== *)
(** ** The line preprocessor: [preprocess_markdown], lines 35-82 *)
(* ===================================================================== *)

Module Pre.

(** Lines 48-56. *)
Definition is_block_start (line : str) : bool :=
  let s := strip line in
  startswith s (lit "#") ||
  startswith s (lit ">") ||
  startswith s (lit "```") || startswith s (lit "~~~") ||
  startswith s (lit "$$") ||
  is_empty s.

(** The tuple of line 72. *)
Definition next_markers : list str :=
  [lit "#"; lit ">"; lit "```"; lit "~~~"; lit "$$"].

(** Line 61. *)
Definition is_table_row (cur : str) : bool := startswith (strip cur) (lit "|").

(** Line 70: [lines[i+1].rstrip("\n") if i+1 < len(lines) else ""]. *)
Definition next_line (lines : list str) (i : nat) : str :=
  if decide (i + 1 < length lines) then rstrip_nl (lines !!! (i + 1)) else [].

(** Line 71. *)
Definition dense (cur : str) : bool :=
  contains dollar cur
  || contains fullwidth_colon cur && bool_decide (40 < length cur)
  || contains comma cur && bool_decide (80 < length cur).

(** Lines 72-74: the line as it leaves the dense-line rule. *)
Definition dense_rule (cur next : str) : str :=
  if negb (is_empty cur) && negb (is_empty next)
     && negb (startswith_any (strip next) next_markers)
  then if dense cur && negb (endswith cur (lit "  "))
       then cur ++ lit "  "
       else cur
  else cur.

(** The two variables the loop updates. *)
Record state := State { out_lines : list str; prev_blank : bool }.

(** Lines 45-46. *)
Definition init : state := State [] true.

(** One iteration of the loop of lines 58-77. *)
Definition body (lines : list str) (st : state) (il : nat * str) : state :=
  let '(i, line) := il in
  let cur := rstrip_nl line in
  if is_block_start cur && negb (is_table_row cur) then
    let out := if negb (prev_blank st) && negb (is_empty cur)
               then out_lines st ++ [ [] ]
               else out_lines st in
    State (out ++ [cur]) (is_empty cur)
  else
    let cur' := dense_rule cur (next_line lines i) in
    State (out_lines st ++ [cur']) (is_empty cur').

(** [enumerate(lines)] *)
Definition enumerate (lines : list str) : list (nat * str) :=
  zip (seq 0 (length lines)) lines.

(** [out_lines] when the loop ends. *)
Definition preprocess_lines (lines : list str) : list str :=
  out_lines (foldl (body lines) init (enumerate lines)).

(** Line 80: the text written to the temporary file. *)
Definition preprocess_text (lines : list str) : str :=
  join [nl] (preprocess_lines lines).

(** *** Ghost instrumentation

    The same loop, each emitted line labelled with where it comes from: the
    separator of line 64, or the input line of index [i]. *)
Inductive origin := Separator | Source (i : nat).

Record tstate := TState { t_out : list (origin * str); t_prev_blank : bool }.

Definition tinit : tstate := TState [] true.

Definition tbody (lines : list str) (st : tstate) (il : nat * str) : tstate :=
  let '(i, line) := il in
  let cur := rstrip_nl line in
  if is_block_start cur && negb (is_table_row cur) then
    let out := if negb (t_prev_blank st) && negb (is_empty cur)
               then t_out st ++ [(Separator, [])]
               else t_out st in
    TState (out ++ [(Source i, cur)]) (is_empty cur)
  else
    let cur' := dense_rule cur (next_line lines i) in
    TState (t_out st ++ [(Source i, cur')]) (is_empty cur').

Definition preprocess_tagged (lines : list str) : list (origin * str) :=
  t_out (foldl (tbody lines) tinit (enumerate lines)).

(** The input line an emitted line stands for, if it is not a separator. *)
Definition source_of (x : origin * str) : option (nat * str) :=
  match x.1 with
  | Source i => Some (i, x.2)
  | Separator => None
  end.

(** *** The loop seen one input line at a time *)

(** What one iteration appends for the input line: the line itself, or
    the line with the hard break. *)
Definition emitted (lines : list str) (i : nat) (line : str) : str :=
  let cur := rstrip_nl line in
  if is_block_start cur then cur else dense_rule cur (next_line lines i).

(** Whether the iteration appends the separator first. *)
Definition separates (pb : bool) (line : str) : bool :=
  let cur := rstrip_nl line in
  is_block_start cur && negb pb && negb (is_empty cur).

Definition chunk (lines : list str) (pb : bool) (il : nat * str) : list (origin * str) :=
  (if separates pb il.2 then [(Separator, [])] else [])
  ++ [(Source il.1, emitted lines il.1 il.2)].

Fixpoint chunks (lines : list str) (pb : bool) (ps : list (nat * str))
  : list (origin * str) :=
  match ps with
  | [] => []
  | il :: ps' =>
      chunk lines pb il
      ++ chunks lines (is_empty (emitted lines il.1 il.2)) ps'
  end.

(** What surrounds a separator in the output of the loop started with
    [prev_blank = pb]: a non-empty input line before it (or nothing, which
    needs [pb] false), the non-empty block-start line it was emitted for
    after it. *)
Definition separator_context (lines : list str) (pb : bool) (ps : list (nat * str))
    (pre : list (origin * str)) (l : str) (post : list (origin * str))
  : Prop :=
  l = []
  ∧ (pre = [] → pb = false)
  ∧ (∀ x, last pre = Some x → ∃ j p, x = (Source j, p) ∧ p ≠ [])
  ∧ ∃ i line post',
      (i, line) ∈ ps ∧ post = (Source i, rstrip_nl line) :: post'
      ∧ rstrip_nl line ≠ [] ∧ is_block_start (rstrip_nl line) = true.

End Pre.

Import Pre.

(* ===================================================================== *)
(** ** The loop of the preprocessor as a recursion *)
(* ===================================================================== *)

Module PreRec.

(** The loop of lines 58-77 as a recursion on the lines still to read: the
    next line is the head of what is left, [pb] is [prev_blank]. *)
Fixpoint loop_from (pb : bool) (l : list str) : list str :=
  match l with
  | [] => []
  | line :: rest =>
      let cur := rstrip_nl line in
      let next := match rest with n :: _ => rstrip_nl n | [] => [] end in
      let e := if is_block_start cur then cur else dense_rule cur next in
      (if separates pb line then [ [] ] else []) ++ e :: loop_from (is_empty e) rest
  end.

End PreRec.

Import PreRec.


(* ===================================================================== *)
(** ** The python-docx objects the cell normalizer touches *)
(* ===================================================================== *)

Module Docx.

(** [WD_ALIGN_PARAGRAPH] *)
Inductive alignment := LEFT | CENTER | RIGHT | JUSTIFY.

(** [docx.shared.Pt]: a length in English Metric Units. *)
Definition Pt (points : Z) : Z := (points * 12700)%Z.

Section Objects.
(** The run and paragraph properties the script never reads or writes
    (bold, colour, style, ...), and those of a run without properties. *)
Context {RProps PProps : Type}.
Variable no_props : RProps.

Record run := Run {
  r_text : str;
  font_name : option str;
  font_size : option Z;
  r_props : RProps
}.

Record paragraph := Paragraph {
  runs : list run;
  p_alignment : option alignment;
  p_props : PProps
}.

(** [cell.paragraphs], [row.cells], [table.rows], [doc.tables] *)
Definition cell := list paragraph.
Definition row := list cell.
Definition table := list row.
Definition document := list table.

(** [p.text]: the texts of the runs, concatenated. *)
Definition p_text (p : paragraph) : str := concat (r_text <$> runs p).

(** [r.clear()]: the content goes, the formatting stays. *)
Definition run_clear (r : run) : run :=
  Run [] (font_name r) (font_size r) (r_props r).

(** [p.text = t]: [p.clear()] removes every run and keeps the paragraph
    formatting, [p.add_run(t)] adds one run without properties. *)
Definition p_set_text (p : paragraph) (t : str) : paragraph :=
  Paragraph [Run t None None no_props] (p_alignment p) (p_props p).

(** [r.font.name = n; r.font.size = z] *)
Definition run_set_font (n : str) (z : Z) (r : run) : run :=
  Run (r_text r) (Some n) (Some z) (r_props r).

(** [p.alignment = a] *)
Definition p_set_alignment (a : alignment) (p : paragraph) : paragraph :=
  Paragraph (runs p) (Some a) (p_props p).

(** [for r in p.runs: f(r)] *)
Definition p_map_runs (f : run → run) (p : paragraph) : paragraph :=
  Paragraph (f <$> runs p) (p_alignment p) (p_props p).
End Objects.

Arguments run : clear implicits.
Arguments paragraph : clear implicits.
Arguments cell : clear implicits.
Arguments row : clear implicits.
Arguments table : clear implicits.
Arguments document : clear implicits.

End Docx.

Import Docx.

(* ===================================================================== *)
(** ** The cell normalizer: [clean_table_cells], lines 107-149 *)
(* ===================================================================== *)

Module Clean.

(** Line 115: [^\s\$(.+)\$\s*$] *)
Definition math_inline_re : pattern :=
  [Bol; One Space; One (Lit dollar);
   Open; Plus Dot; Close;
   One (Lit dollar); Star Space; Eol].

(** Line 116: [^\s\$\$(.+)\$\$\s*$] *)
Definition math_block_re : pattern :=
  [Bol; One Space; One (Lit dollar); One (Lit dollar);
   Open; Plus Dot; Close;
   One (Lit dollar); One (Lit dollar); Star Space; Eol].

(** Lines 124-130: [cleaned], [None] when neither pattern matches. *)
Definition cleaned (full_text : str) : option str :=
  let m1 := re_match math_inline_re full_text in
  let m2 := re_match math_block_re full_text in
  match m1 with
  | Some m => Some (strip (group1 m))
  | None =>
      match m2 with
      | Some m => Some (strip (group1 m))
      | None => None
      end
  end.

Section Cells.
Context {RProps PProps : Type}.
Variable no_props : RProps.

Abbreviation cell := (cell RProps PProps).
Abbreviation document := (document RProps PProps).

(** Line 122. *)
Definition full_text (c : cell) : str := strip (join [nl] (p_text <$> c)).

(** Lines 134-138. *)
Definition overwrite (t : str) (c : cell) : cell :=
  (λ p, p_set_text no_props (p_map_runs run_clear p) t) <$> c.

(** Lines 143-147. *)
Definition mark_formula (c : cell) : cell :=
  (λ p, p_set_alignment LEFT
          (p_map_runs (run_set_font (lit "Consolas") (Pt 10)) p)) <$> c.

(** The body of the innermost loop, lines 121-147. *)
Definition clean_cell (c : cell) : cell :=
  let ft := full_text c in
  match cleaned ft with
  | Some t => overwrite t c
  | None => if startswith ft (lit "=") then mark_formula c else c
  end.

(** The text content of a cell: the text of each run of each of its
    paragraphs. *)
Definition cell_texts (c : cell) : list (list str) :=
  (λ p, r_text <$> runs p) <$> c.

Definition doc_texts (doc : document) : list (list (list (list (list str)))) :=
  fmap (M := list) (fmap (M := list) (fmap (M := list) cell_texts)) doc.

(** Lines 118-120: every cell of every row of every table. *)
Definition clean_table_cells (doc : document) : document :=
  fmap (M := list) (fmap (M := list) (fmap (M := list) clean_cell)) doc.
End Cells.

(** *** The inline pattern as the specification words it

    Optional leading whitespace, a single dollar, one or more captured
    characters, a single dollar, optional trailing whitespace. *)
Definition spec_inline_re : pattern :=
  [Bol; Star Space; One (Lit dollar);
   Open; Plus Dot; Close;
   One (Lit dollar); Star Space; Eol].

End Clean.

Import Clean.

(* ===================================================================== *)
(** ** The driver: [main], lines 151-185 *)
(* ===================================================================== *)

Module Main.

(** The exceptions in play. [SystemExit] is a [BaseException] only; the
    other two are [Exception]s. [OtherException] stands for every
    [Exception] that is not a [CalledProcessError]: the [OSError] of [open]
    or [os.unlink], a [UnicodeDecodeError] of the read, python-docx's
    [PackageNotFoundError]. *)
Inductive exn :=
| SystemExit (code : Z)
| CalledProcessError (returncode : Z)
| OtherException (what : string).

Definition is_Exception (e : exn) : bool :=
  match e with SystemExit _ => false | _ => true end.

(** What [print] is given: a string, or an exception to render. *)
Inductive printed := Line (s : string) | Detail (e : exn).

(** Ghost log of the steps of the pipeline that were entered. *)
Inductive call :=
| Preprocess (in_path : string)
| Convert (input_md output_docx : string)
| CleanCells (docx_path : string)
| Unlink (path : string).

Section Driver.
Context {RProps PProps : Type}.
Variable no_props : RProps.

Inductive file :=
| Text (content : str)
| Word (doc : document RProps PProps).

Record world := World {
  files : gmap string file;
  stdout : list printed;
  calls : list call
}.

(** A computation reads and writes the world and returns or raises. *)
Definition M (A : Type) : Type := world → (exn + A) * world.

Definition ret {A} (a : A) : M A := λ w, (inr a, w).
Definition raise {A} (e : exn) : M A := λ w, (inl e, w).
Definition bind {A B} (m : M A) (k : A → M B) : M B :=
  λ w, match m w with
       | (inr a, w') => k a w'
       | (inl e, w') => (inl e, w')
       end.

(** [try: m  except <those e with h e = Some _>: h e] *)
Definition try_except {A} (m : M A) (h : exn → option (M A)) : M A :=
  λ w, match m w with
       | (inr a, w') => (inr a, w')
       | (inl e, w') =>
           match h e with
           | Some handler => handler w'
           | None => (inl e, w')
           end
       end.

(** [try: m  finally: fin]: [fin] runs however [m] ends; what [m]
    returned or raised stands unless [fin] raises itself. *)
Definition try_finally {A} (m : M A) (fin : M unit) : M A :=
  λ w, match m w with
       | (r, w') =>
           match fin w' with
           | (inr _, w'') => (r, w'')
           | (inl e, w'') => (inl e, w'')
           end
       end.

#[export] Instance M_ret : MRet M := @ret.
#[export] Instance M_bind : MBind M := λ A B k m, bind m k.

Definition print (x : printed) : M unit :=
  λ w, (inr (), World (files w) (stdout w ++ [x]) (calls w)).
Definition log (c : call) : M unit :=
  λ w, (inr (), World (files w) (stdout w) (calls w ++ [c])).
Definition read (path : string) : M (option file) :=
  λ w, (inr (files w !! path), w).
Definition write (path : string) (f : file) : M unit :=
  λ w, (inr (), World (<[path := f]> (files w)) (stdout w) (calls w)).
Definition remove (path : string) : M unit :=
  λ w, (inr (), World (delete path (files w)) (stdout w) (calls w)).

(** [sys.exit(code)] *)
Definition sys_exit {A} (code : Z) : M A := raise (SystemExit code).

(** [os.path.isfile(path)] *)
Definition isfile (path : string) : M bool :=
  f ← read path; ret (bool_decide (is_Some f)).

(** [os.unlink(path)] *)
Definition unlink (path : string) : M unit :=
  log (Unlink path) ;;
  f ← read path;
  match f with
  | Some _ => remove path
  | None => raise (OtherException "No such file or directory")
  end.

(** The environment of one run. *)
(** [shutil.which("pandoc") is not None], line 33. *)
Variable check_pandoc : bool.
(** The converter as a black box: from the file it is pointed at and the
    reference document, its exit status and the document it wrote. *)
Variable pandoc :
  option file → option string → Z * option (document RProps PProps).
(** The name [tempfile.NamedTemporaryFile] picks. *)
Variable tmp_name : string.
(** [os.path.splitext(path)[0]] *)
Variable splitext_root : string → string.

(** Lines 35-82. *)
Definition preprocess_markdown (in_path : string) : M string :=
  log (Preprocess in_path) ;;
  f ← read in_path;
  match f with
  | Some (Text t) =>
      write tmp_name (Text (preprocess_text (readlines t))) ;;
      ret tmp_name
  | _ => raise (OtherException "cannot read the input as text")
  end.

(** Lines 84-105; [subprocess.run(cmd, check=True)] raises on a
    non-zero exit status. *)
Definition convert_md_to_docx
    (input_md output_docx : string) (reference_doc : option string)
  : M unit :=
  log (Convert input_md output_docx) ;;
  f ← read input_md;
  let '(returncode, written) := pandoc f reference_doc in
  match written with
  | Some d => write output_docx (Word d)
  | None => ret ()
  end ;;
  if bool_decide (returncode = 0%Z) then ret ()
  else raise (CalledProcessError returncode).

(** Lines 107-149, on the file system. *)
Definition clean_table_cells_at (docx_path : string) : M unit :=
  log (CleanCells docx_path) ;;
  f ← read docx_path;
  match f with
  | Some (Word d) => write docx_path (Word (clean_table_cells no_props d))
  | _ => raise (OtherException "not a Word document")
  end.

(** Line 165; an empty string is as false as [None]. *)
Definition default_output (input_md : string) (arg : option string)
  : string :=
  match arg with
  | Some (String c s) => String c s
  | _ => (splitext_root input_md +:+ ".docx")%string
  end.

(** Lines 160-185. *)
Definition main (input_md : string) (output_arg reference_doc : option string)
  : M unit :=
  found ← isfile input_md;
  if negb found then
    print (Line ("Input file not found: " +:+ input_md)) ;;
    sys_exit 1
  else
    let output_docx := default_output input_md output_arg in
    if negb check_pandoc then
      print (Line "Error: pandoc not found. Please install pandoc from https://pandoc.org/installing.html") ;;
      sys_exit 1
    else
      pre_md ← preprocess_markdown input_md;
      try_finally
        (try_except
           (convert_md_to_docx pre_md output_docx reference_doc ;;
            clean_table_cells_at output_docx ;;
            print (Line ("Converted: " +:+ input_md +:+ " -> " +:+ output_docx)))
           (λ e, match e with
                 | CalledProcessError _ =>
                     Some (print (Line "Pandoc conversion failed.") ;;
                           print (Detail e) ;;
                           sys_exit 1)
                 | _ => None
                 end))
        (try_except (unlink pre_md)
           (λ e, if is_Exception e then Some (ret ()) else None)).

(** The exit status of the process: 0 when [main] returns, the code of
    a [SystemExit], 1 for an exception nobody caught. *)
Definition exit_status {A} (r : exn + A) : Z :=
  match r with
  | inr _ => 0
  | inl (SystemExit code) => code
  | inl _ => 1
  end.
End Driver.

Arguments file : clear implicits.
Arguments world : clear implicits.

End Main.

Import Main.

(* ===================================================================== *)
(** ** The script from its command line: [main], lines 151-185 *)
(* ===================================================================== *)

Module Script.

(** What [parser.parse_args()] (line 158) makes of the command line: the
    three arguments of lines 155-157, or an exit of its own, with status 2
    after a usage error (the message goes to stderr), with status 0 after
    printing the help text for [-h]. *)
Inductive parsed :=
| Args (input_md : string) (output_docx reference_doc : option string)
| UsageError
| Help (text : string).

Section Script.
Context {RProps PProps : Type}.
Variable no_props : RProps.
Variable check_pandoc : bool.
Variable pandoc :
  option (file RProps PProps) → option string
  → Z * option (document RProps PProps).
Variable tmp_name : string.
Variable splitext_root : string → string.
(** [argparse], a black box like the converter. *)
Variable parse_args : list string → parsed.

(** Lines 152-185: the parser first, then the steps of [Main.main]. *)
Definition main_argv (argv : list string)
  : M (RProps := RProps) (PProps := PProps) unit :=
  match parse_args argv with
  | Args input_md output_docx reference_doc =>
      main no_props check_pandoc pandoc tmp_name splitext_root
        input_md output_docx reference_doc
  | UsageError => sys_exit 2
  | Help text => print (Line text) ;; sys_exit 0
  end.

End Script.
End Script.

Import Script.

(* ===================================================================== *)
(** ** Judgements on the computations of the driver *)
(* ===================================================================== *)

Module Judge.
Section Judge.
Context {RProps PProps : Type}.

(** [m] leaves every file alone whose path is not among [paths]. *)
Definition touches_only {A} (paths : list string)
    (m : M (RProps := RProps) (PProps := PProps) A) : Prop :=
  ∀ w path, path ∉ paths → files (m w).2 !! path = files w !! path.

(** An exception [m] ends in is one of [E]. *)
Definition raises_only {A} (E : exn → Prop)
    (m : M (RProps := RProps) (PProps := PProps) A) : Prop :=
  ∀ w e, (m w).1 = inl e → E e.

(** A value [m] returns is one of [Q]. *)
Definition returns_only {A} (Q : A → Prop)
    (m : M (RProps := RProps) (PProps := PProps) A) : Prop :=
  ∀ w a, (m w).1 = inr a → Q a.

End Judge.
End Judge.

Import Judge.

(* ===================================================================== *)
(** ** Sanity checks of the models on concrete inputs *)
(* ===================================================================== *)

Example pre_heading_then_text :
  preprocess_lines [lit "# Title" ++ [nl]; lit "body" ++ [nl]; lit "> q"]
  = [lit "# Title"; lit "body"; []; lit "> q"].
Proof. vm_compute. reflexivity. Qed.

Example re_inline_on_padded :
  group1 <$> re_match math_inline_re (lit " $x+1$ ") = Some (lit "x+1").
Proof. vm_compute. reflexivity. Qed.

Example re_inline_on_bare : re_match math_inline_re (lit "$x+1$") = None.
Proof. vm_compute. reflexivity. Qed.

Example re_inline_greedy :
  group1 <$> re_match math_inline_re (lit " $a$b$ ") = Some (lit "a$b").
Proof. vm_compute. reflexivity. Qed.

Example re_block_on_padded :
  (group1 <$> re_match math_inline_re (lit " $$a=b$$"),
   group1 <$> re_match math_block_re (lit " $$a=b$$"))
  = (Some (lit "$a=b$"), Some (lit "a=b")).
Proof. vm_compute. reflexivity. Qed.

(* ===================================================================== *)
(** ** Facts about the string operations *)
(* ===================================================================== *)

(** Replace the literals of the source by their code points. *)
Ltac eval_lits :=
  repeat match goal with
    | |- context [lit ?s] =>
        let v := eval vm_compute in (lit s) in change (lit s) with v
    | H : context [lit ?s] |- _ =>
        let v := eval vm_compute in (lit s) in change (lit s) with v in H
    end.

#[global] Arguments strip : simpl never.
#[global] Arguments rstrip_nl : simpl never.
#[global] Arguments lit : simpl never.

Section PyFacts.
Implicit Types (p : char → bool) (s t : str) (c : char).

Lemma drop_while_head p s :
  drop_while p s = [] ∨ ∃ c r, drop_while p s = c :: r ∧ p c = false.
Proof.
  induction s as [|c s IH]; cbn; [by left|].
  destruct (p c) eqn:Hc; [exact IH|]. right. by exists c, s.
Qed.

Lemma drop_while_snoc_keep p s c :
  p c = false → drop_while p (s ++ [c]) = drop_while p s ++ [c].
Proof.
  intros Hc. induction s as [|a s IH]; cbn; [by rewrite Hc|].
  by destruct (p a).
Qed.

Lemma rstrip_by_cons_keep p c s :
  p c = false → ∃ r, rstrip_by p (c :: s) = c :: r.
Proof.
  intros Hc. unfold rstrip_by.
  rewrite reverse_cons, drop_while_snoc_keep by done.
  rewrite reverse_app. cbn. eauto.
Qed.

(** A stripped string is empty or starts with a character that is not
    whitespace. *)
Lemma strip_head s :
  strip s = [] ∨ ∃ c r, strip s = c :: r ∧ isspace c = false.
Proof.
  unfold strip, lstrip_by.
  destruct (drop_while_head isspace s) as [-> | (c & r & -> & Hc)].
  - by left.
  - right. destruct (rstrip_by_cons_keep isspace c r Hc) as [r' ->].
    by exists c, r'.
Qed.

Lemma startswith_app s t : startswith (t ++ s) t = true.
Proof. induction t as [|a t IH]; cbn; [done|]. by rewrite N.eqb_refl. Qed.

Lemma endswith_app s t : endswith (s ++ t) t = true.
Proof. unfold endswith. rewrite reverse_app. apply startswith_app. Qed.

Lemma is_empty_true s : is_empty s = true ↔ s = [].
Proof. by destruct s. Qed.

Lemma is_empty_false s : is_empty s = false ↔ s ≠ [].
Proof. by destruct s. Qed.
End PyFacts.

(* ===================================================================== *)
(** ** The line preprocessor *)
(* ===================================================================== *)

Section PreFacts.
Implicit Types (lines : list str) (line cur next : str) (i : nat).

(** The guard [and not is_table_row] of line 62 never decides anything:
    no line is both a block start and a table row. *)
Lemma block_start_not_table_row cur :
  is_block_start cur = true → is_table_row cur = false.
Proof.
  unfold is_block_start, is_table_row.
  destruct (strip cur) as [|c r]; [done|].
  eval_lits; cbn [startswith].
  destruct (N.eqb_spec 124 c) as [<-|]; [cbn|]; done.
Qed.

Lemma block_guard cur :
  is_block_start cur && negb (is_table_row cur) = is_block_start cur.
Proof.
  destruct (is_block_start cur) eqn:Hb; [|done].
  by rewrite (block_start_not_table_row _ Hb).
Qed.

Lemma tbody_chunk lines st il :
  tbody lines st il =
  TState (t_out st ++ chunk lines (t_prev_blank st) il)
         (is_empty (emitted lines il.1 il.2)).
Proof.
  destruct il as [i line], st as [out pb].
  unfold tbody, chunk, separates, emitted; cbn.
  rewrite block_guard.
  destruct (is_block_start (rstrip_nl line)); cbn; [|done].
  destruct pb, (is_empty (rstrip_nl line)); cbn; by rewrite <- ?app_assoc.
Qed.

Lemma foldl_tbody lines ps st :
  t_out (foldl (tbody lines) st ps) =
  t_out st ++ chunks lines (t_prev_blank st) ps.
Proof.
  revert st. induction ps as [|il ps IH]; intros st; cbn [foldl chunks].
  - by rewrite app_nil_r.
  - rewrite IH, tbody_chunk; cbn [t_out t_prev_blank].
    by rewrite <- app_assoc.
Qed.

Lemma preprocess_tagged_chunks lines :
  preprocess_tagged lines = chunks lines true (enumerate lines).
Proof. unfold preprocess_tagged. by rewrite foldl_tbody. Qed.

(** Forgetting the labels of the instrumented loop gives the loop of the
    source. *)
Lemma body_erases lines st tst il :
  out_lines st = (t_out tst).*2 → prev_blank st = t_prev_blank tst →
  out_lines (body lines st il) = (t_out (tbody lines tst il)).*2
  ∧ prev_blank (body lines st il) = t_prev_blank (tbody lines tst il).
Proof.
  destruct il as [i line], st as [out pb], tst as [tout tpb]; cbn.
  intros -> ->. unfold body, tbody; cbn.
  destruct (is_block_start (rstrip_nl line) && negb (is_table_row (rstrip_nl line)));
    cbn; [|by rewrite fmap_app].
  destruct (negb tpb && negb (is_empty (rstrip_nl line)));
    cbn; by rewrite !fmap_app.
Qed.

Lemma foldl_erases lines ps st tst :
  out_lines st = (t_out tst).*2 → prev_blank st = t_prev_blank tst →
  out_lines (foldl (body lines) st ps)
  = (t_out (foldl (tbody lines) tst ps)).*2.
Proof.
  revert st tst. induction ps as [|il ps IH]; intros st tst Ho Hp; cbn.
  - done.
  - destruct (body_erases lines st tst il Ho Hp). by apply IH.
Qed.

Lemma preprocess_tagged_erase lines :
  (preprocess_tagged lines).*2 = preprocess_lines lines.
Proof. symmetry. by apply foldl_erases. Qed.

Lemma elem_of_enumerate lines i line :
  (i, line) ∈ enumerate lines ↔ lines !! i = Some line.
Proof.
  unfold enumerate. rewrite list_elem_of_lookup. split.
  - intros [j Hj]. rewrite lookup_zip_with in Hj.
    destruct (seq 0 (length lines) !! j) as [k|] eqn:Hk; [|done].
    destruct (lines !! j) as [x|] eqn:Hx; [|done].
    cbn in Hj. apply lookup_seq in Hk as [-> _]. by simplify_eq.
  - intros Hi. exists i. rewrite lookup_zip_with.
    rewrite lookup_seq_lt by (by eapply lookup_lt_Some). by rewrite Hi.
Qed.

Lemma emitted_cases lines i line :
  emitted lines i line = rstrip_nl line
  ∨ emitted lines i line = rstrip_nl line ++ lit "  ".
Proof.
  unfold emitted, dense_rule.
  repeat match goal with |- context [if ?b then _ else _] => destruct b end;
    auto.
Qed.

(** The input lines, in order, are what is left of the output once the
    separators are taken out. *)
Lemma chunks_sources lines pb ps :
  omap source_of (chunks lines pb ps)
  = (λ il, (il.1, emitted lines il.1 il.2)) <$> ps.
Proof.
  revert pb. induction ps as [|il ps IH]; intros pb; [done|].
  cbn [chunks]. rewrite omap_app, IH. unfold chunk.
  by destruct (separates pb il.2).
Qed.

Lemma chunks_separators_blank lines pb ps l :
  (Separator, l) ∈ chunks lines pb ps → l = [].
Proof.
  revert pb. induction ps as [|il ps IH]; intros pb; cbn [chunks].
  - by intros ?%elem_of_nil.
  - rewrite elem_of_app. intros [Hin|Hin]; [|by eapply IH].
    unfold chunk in Hin. destruct (separates pb il.2); cbn in Hin.
    + apply elem_of_cons in Hin as [?|Hin]; [by simplify_eq|].
      apply list_elem_of_singleton in Hin. by simplify_eq.
    + apply list_elem_of_singleton in Hin. by simplify_eq.
Qed.

Lemma separates_true pb line :
  separates pb line = true →
  pb = false ∧ rstrip_nl line ≠ [] ∧ is_block_start (rstrip_nl line) = true.
Proof.
  unfold separates. intros [[Hb Hp]%andb_prop He]%andb_prop.
  apply negb_true_iff in Hp, He. by apply is_empty_false in He.
Qed.

Lemma separator_context_after_source lines pb ps i e pre l post il :
  separator_context lines (is_empty e) ps pre l post →
  separator_context lines pb (il :: ps) ((Source i, e) :: pre) l post.
Proof.
  intros (Hl & Hpb & Hlast & (k & line & post' & Hin & Hpost & Hne & Hb)).
  split; [done|]. split; [done|]. split.
  - intros x Hx. destruct pre as [|y pre].
    + cbn in Hx. simplify_eq. exists i, e. split; [done|].
      apply is_empty_false. by apply Hpb.
    + rewrite last_cons_cons in Hx. by apply Hlast.
  - exists k, line, post'. by rewrite elem_of_cons; auto.
Qed.

Lemma chunks_separator lines pb ps pre l post :
  chunks lines pb ps = pre ++ (Separator, l) :: post →
  separator_context lines pb ps pre l post.
Proof.
  revert pb pre. induction ps as [|[i line] ps IH]; intros pb pre; cbn [chunks].
  { by destruct pre. }
  unfold chunk; cbn [fst snd].
  destruct (separates pb line) eqn:Hsep; cbn [app]; intros Heq.
  - apply separates_true in Hsep as (-> & Hne & Hb).
    assert (emitted lines i line = rstrip_nl line) as He
      by (unfold emitted; by rewrite Hb).
    destruct pre as [|x pre]; cbn in Heq.
    + simplify_eq. split; [done|]. split; [done|]. split; [done|].
      exists i, line, (chunks lines (is_empty (emitted lines i line)) ps).
      rewrite He. by rewrite elem_of_cons; auto.
    + destruct pre as [|y pre]; cbn in Heq; [by simplify_eq|].
      injection Heq as <- <- Heq. apply IH in Heq.
      pose proof (separator_context_after_source
                    lines false ps i _ _ _ _ (i, line) Heq)
        as (Hl & _ & Hlast & Hpost).
      split; [done|]. split; [done|]. split; [|done].
      intros x. rewrite last_cons_cons. apply Hlast.
  - destruct pre as [|x pre]; cbn in Heq; [by simplify_eq|].
    injection Heq as <- Heq. apply IH in Heq.
    by apply separator_context_after_source.
Qed.
End PreFacts.

Section PreTheorems.
Implicit Types (lines : list str) (line cur next : str) (i : nat).

Lemma sources_of_tagged lines :
  omap source_of (preprocess_tagged lines)
  = (λ il, (il.1, emitted lines il.1 il.2)) <$> enumerate lines.
Proof. rewrite preprocess_tagged_chunks. apply chunks_sources. Qed.

Lemma lookup_enumerate lines i line :
  lines !! i = Some line → enumerate lines !! i = Some (i, line).
Proof.
  intros Hi. unfold enumerate. rewrite lookup_zip_with.
  rewrite lookup_seq_lt by (by eapply lookup_lt_Some). by rewrite Hi.
Qed.

Lemma lookup_source lines i line :
  lines !! i = Some line →
  omap source_of (preprocess_tagged lines) !! i
  = Some (i, emitted lines i line).
Proof.
  intros Hi. rewrite sources_of_tagged, list_lookup_fmap.
  by rewrite (lookup_enumerate _ _ _ Hi).
Qed.

(** The test on the next line of line 72 against [is_block_start]: they
    differ on a next line made of whitespace only. *)
Lemma is_block_start_markers line :
  is_block_start line
  = startswith_any (strip line) next_markers || is_empty (strip line).
Proof.
  unfold is_block_start, startswith_any, next_markers; cbn [existsb].
  generalize (strip line); intros s.
  by destruct (startswith s (lit "#")), (startswith s (lit ">")),
    (startswith s (lit "```")), (startswith s (lit "~~~")),
    (startswith s (lit "$$")).
Qed.

Lemma app_two_spaces_ne cur : cur ≠ cur ++ lit "  ".
Proof.
  intros Heq. apply (f_equal length) in Heq.
  rewrite length_app in Heq. change (length (lit "  ")) with 2 in Heq. lia.
Qed.

(** Lines 72-74 leave alone a line that already ends in two spaces. *)
Lemma dense_rule_after_break cur next :
  dense_rule (cur ++ lit "  ") next = cur ++ lit "  ".
Proof.
  unfold dense_rule. rewrite endswith_app, andb_false_r.
  by destruct (_ && _).
Qed.

Lemma dense_rule_breaks cur next :
  dense_rule cur next = cur ++ lit "  " ↔
  cur ≠ [] ∧ next ≠ []
  ∧ startswith_any (strip next) next_markers = false
  ∧ dense cur = true ∧ endswith cur (lit "  ") = false.
Proof.
  unfold dense_rule. rewrite <- !is_empty_false.
  destruct (is_empty cur), (is_empty next),
    (startswith_any (strip next) next_markers),
    (dense cur), (endswith cur (lit "  ")); cbn;
    (split;
     [ intros Heq; try done; exfalso; by eapply app_two_spaces_ne
     | intros (? & ? & ? & ? & ?); done ]).
Qed.

(** X5. No separator is ever put before a table row: the line after a
    separator is a block start. *)
Lemma no_separator_before_table_row lines pre l i cur post :
  preprocess_tagged lines = pre ++ (Separator, l) :: (Source i, cur) :: post →
  is_table_row cur = false.
Proof.
  rewrite preprocess_tagged_chunks. intros H%chunks_separator.
  destruct H as (_ & _ & _ & (k & line & post' & _ & Heq & _ & Hb)).
  simplify_eq. by apply block_start_not_table_row.
Qed.
End PreTheorems.

(** C3 (the code departs from it). A table row is a line like any other to
    the dense-line rule: in this four-line table the third row holds a
    dollar sign and is followed by a fourth, and it leaves the loop with two
    spaces appended. The test [is_table_row] only guards the block-start
    branch, which no table row can enter. *)
Theorem table_row_gets_hard_break :
  let lines := [lit "| a | b |" ++ [nl]; lit "|---|---|" ++ [nl];
                lit "| $x$ | 1 |" ++ [nl]; lit "| y | 2 |" ++ [nl]] in
  is_table_row (lit "| $x$ | 1 |") = true
  ∧ preprocess_lines lines
    = [lit "| a | b |"; lit "|---|---|"; lit "| $x$ | 1 |  "; lit "| y | 2 |"].
Proof. split; vm_compute; reflexivity. Qed.

(** C4, as the claim words it, fails: a heading that holds a dollar sign and
    is followed by a line of text meets every condition listed, and is
    emitted as it is. *)
Lemma block_start_line_gets_no_hard_break :
  ¬ (∀ lines i line e,
       lines !! i = Some line →
       omap source_of (preprocess_tagged lines) !! i = Some (i, e) →
       (e = rstrip_nl line ++ lit "  " ↔
          rstrip_nl line ≠ []
          ∧ next_line lines i ≠ []
          ∧ is_block_start (next_line lines i) = false
          ∧ dense (rstrip_nl line) = true
          ∧ endswith (rstrip_nl line) (lit "  ") = false)).
Proof.
  intros H.
  pose (lines := [lit "# $x$" ++ [nl]; lit "text" ++ [nl]]).
  assert (omap source_of (preprocess_tagged lines) !! 0 = Some (0, lit "# $x$"))
    as Hout by (vm_compute; reflexivity).
  destruct (H lines 0 (lit "# $x$" ++ [nl]) (lit "# $x$") eq_refl Hout)
    as [_ Hback].
  assert (lit "# $x$" = rstrip_nl (lit "# $x$" ++ [nl]) ++ lit "  ") as Heq.
  { apply Hback. vm_compute. by repeat split. }
  vm_compute in Heq. discriminate.
Qed.

(** C4 (amended). The [i]-th line of the input is emitted once, as it is or
    with two spaces appended. Provided the next line is not a non-empty line
    of whitespace only, it gets the two spaces if and only if it is not a
    block-start line, it is non-empty, the next line is non-empty and not a
    block-start line, the dense predicate holds and it does not end in two
    spaces already. The rule of lines 72-74 leaves alone a line that got
    them, whatever follows it. *)
Theorem hard_break_iff (lines : list str) (i : nat) (line : str) :
  lines !! i = Some line →
  next_line lines i = [] ∨ strip (next_line lines i) ≠ [] →
  ∃ e,
    omap source_of (preprocess_tagged lines) !! i = Some (i, e)
    ∧ (e = rstrip_nl line ∨ e = rstrip_nl line ++ lit "  ")
    ∧ (e = rstrip_nl line ++ lit "  " ↔
         is_block_start (rstrip_nl line) = false
         ∧ rstrip_nl line ≠ []
         ∧ next_line lines i ≠ []
         ∧ is_block_start (next_line lines i) = false
         ∧ dense (rstrip_nl line) = true
         ∧ endswith (rstrip_nl line) (lit "  ") = false)
    ∧ (e = rstrip_nl line ++ lit "  " → ∀ next, dense_rule e next = e).
Proof.
  intros Hi Hnext. exists (emitted lines i line).
  split; [by apply lookup_source|]. split; [apply emitted_cases|]. split.
  - unfold emitted. destruct (is_block_start (rstrip_nl line)) eqn:Hb.
    + split; [by intros ?%app_two_spaces_ne | by intros (? & _)].
    + rewrite dense_rule_breaks, (is_block_start_markers (next_line lines i)).
      split.
      * intros (Hc & Hn & Hm & Hd & He). repeat split; try done.
        rewrite Hm. destruct Hnext as [?|Hs]; [done|].
        by apply is_empty_false in Hs as ->.
      * intros (_ & Hc & Hn & [Hm _]%orb_false_elim & Hd & He). done.
  - intros ->. apply dense_rule_after_break.
Qed.

Lemma hard_break_iff_witness :
  let lines := [lit "a $x$ b" ++ [nl]; lit "next" ++ [nl]] in
  lines !! 0 = Some (lit "a $x$ b" ++ [nl])
  ∧ (next_line lines 0 = [] ∨ strip (next_line lines 0) ≠ [])
  ∧ ∃ e,
      omap source_of (preprocess_tagged lines) !! 0 = Some (0, e)
      ∧ (e = rstrip_nl (lit "a $x$ b" ++ [nl])
         ∨ e = rstrip_nl (lit "a $x$ b" ++ [nl]) ++ lit "  ")
      ∧ (e = rstrip_nl (lit "a $x$ b" ++ [nl]) ++ lit "  " ↔
           is_block_start (rstrip_nl (lit "a $x$ b" ++ [nl])) = false
           ∧ rstrip_nl (lit "a $x$ b" ++ [nl]) ≠ []
           ∧ next_line lines 0 ≠ []
           ∧ is_block_start (next_line lines 0) = false
           ∧ dense (rstrip_nl (lit "a $x$ b" ++ [nl])) = true
           ∧ endswith (rstrip_nl (lit "a $x$ b" ++ [nl])) (lit "  ") = false)
      ∧ (e = rstrip_nl (lit "a $x$ b" ++ [nl]) ++ lit "  " →
         ∀ next, dense_rule e next = e).
Proof.
  intros lines.
  assert (lines !! 0 = Some (lit "a $x$ b" ++ [nl])) as H1 by reflexivity.
  assert (next_line lines 0 = [] ∨ strip (next_line lines 0) ≠ []) as H2
    by (right; vm_compute; discriminate).
  split; [exact H1|]. split; [exact H2|].
  exact (hard_break_iff lines 0 (lit "a $x$ b" ++ [nl]) H1 H2).
Defined.

(** C5. A separator in the output is an empty line; the line emitted just
    before it exists, comes from the input and is not empty (so the first
    line never gets one, the flag starting at true, and no two separators
    are neighbours); the line just after it is the input line it was emitted
    for, unchanged, non-empty and a block start. *)
Theorem separator_placement
    (lines : list str) (pre : list (origin * str)) (l : str)
    (post : list (origin * str)) :
  preprocess_tagged lines = pre ++ (Separator, l) :: post →
  prev_blank init = true
  ∧ l = []
  ∧ (∃ pre' j p, pre = pre' ++ [(Source j, p)] ∧ p ≠ [])
  ∧ (∃ i line post',
        lines !! i = Some line
        ∧ post = (Source i, rstrip_nl line) :: post'
        ∧ rstrip_nl line ≠ []
        ∧ is_block_start (rstrip_nl line) = true).
Proof.
  rewrite preprocess_tagged_chunks. intros H%chunks_separator.
  destruct H as (Hl & Hpb & Hlast & (i & line & post' & Hin & Hpost & Hne & Hb)).
  split; [done|]. split; [done|]. split.
  - destruct (last pre) as [x|] eqn:Hx.
    + destruct (Hlast x eq_refl) as (j & p & -> & Hp).
      apply last_Some in Hx as [pre' ->]. by exists pre', j, p.
    + apply last_None in Hx. by specialize (Hpb Hx).
  - exists i, line, post'. by rewrite <- elem_of_enumerate.
Qed.

Lemma separator_placement_witness :
  let lines := [lit "text" ++ [nl]; lit "# h" ++ [nl]] in
  preprocess_tagged lines
  = [(Source 0, lit "text")] ++ (Separator, []) :: [(Source 1, lit "# h")]
  ∧ prev_blank init = true
  ∧ ([] : str) = []
  ∧ (∃ pre' j p, [(Source 0, lit "text")] = pre' ++ [(Source j, p)] ∧ p ≠ [])
  ∧ (∃ i line post',
        lines !! i = Some line
        ∧ [(Source 1, lit "# h")] = (Source i, rstrip_nl line) :: post'
        ∧ rstrip_nl line ≠ []
        ∧ is_block_start (rstrip_nl line) = true).
Proof.
  intros lines.
  assert (preprocess_tagged lines
          = [(Source 0, lit "text")] ++ (Separator, []) :: [(Source 1, lit "# h")])
    as H by (vm_compute; reflexivity).
  split; [exact H|].
  exact (separator_placement lines _ _ _ H).
Defined.

Example dense_rule_before_whitespace_line :
  preprocess_lines [lit "$x$" ++ [nl]; lit "  " ++ [nl]]
  = [lit "$x$  "; []; lit "  "]
  ∧ is_block_start (lit "  ") = true.
Proof. split; vm_compute; reflexivity. Qed.

(* ===================================================================== *)
(** ** The cell normalizer *)
(* ===================================================================== *)

Section CleanFacts.
Context {RProps PProps : Type}.
Variable no_props : RProps.
Implicit Types (c : cell RProps PProps) (doc : document RProps PProps).
Implicit Types (s : str).

(** Both patterns open with [^\s]: on a stripped string the first
    character, if any, is not whitespace, and the match is over. *)
Lemma re_match_needs_leading_space s q :
  re_match (Bol :: One Space :: q) (strip s) = None.
Proof.
  unfold re_match; cbn [exec]. rewrite bool_decide_eq_true_2 by done.
  destruct (strip_head s) as [-> | (ch & r & -> & Hch)]; [done|].
  cbn [in_cls]. by rewrite Hch.
Qed.

Lemma cleaned_strip s : cleaned (strip s) = None.
Proof.
  unfold cleaned, math_inline_re, math_block_re.
  by rewrite !re_match_needs_leading_space.
Qed.

Lemma cell_texts_mark_formula c : cell_texts (mark_formula c) = cell_texts c.
Proof.
  unfold cell_texts, mark_formula. rewrite <- list_fmap_compose.
  apply list_fmap_ext; intros _ p _; cbn.
  rewrite <- list_fmap_compose. by apply list_fmap_ext.
Qed.

Lemma clean_cell_unfold c :
  clean_cell no_props c
  = if startswith (full_text c) (lit "=") then mark_formula c else c.
Proof. unfold clean_cell, full_text. by rewrite cleaned_strip. Qed.

Lemma clean_cell_length c : length (clean_cell no_props c) = length c.
Proof.
  rewrite clean_cell_unfold. destruct (startswith _ _); [|done].
  unfold mark_formula. by rewrite length_fmap.
Qed.

Lemma cell_texts_clean_cell c :
  cell_texts (clean_cell no_props c) = cell_texts c.
Proof.
  rewrite clean_cell_unfold. destruct (startswith _ _); [|done].
  apply cell_texts_mark_formula.
Qed.
End CleanFacts.

Section CleanTheorems.
Context {RProps PProps : Type}.
Variable no_props : RProps.
Implicit Types (c : cell RProps PProps) (doc : document RProps PProps).

(** Line 127 before line 129: the inline pattern is asked first, the block
    pattern only when it fails, and what is kept is the group, stripped. *)
Lemma cleaned_inline_first s m :
  re_match math_inline_re s = Some m → cleaned s = Some (strip (group1 m)).
Proof. unfold cleaned. by intros ->. Qed.

Lemma cleaned_block_second s m :
  re_match math_inline_re s = None → re_match math_block_re s = Some m →
  cleaned s = Some (strip (group1 m)).
Proof. unfold cleaned. by intros -> ->. Qed.

Lemma doc_texts_clean doc :
  doc_texts (clean_table_cells no_props doc) = doc_texts doc.
Proof.
  unfold doc_texts, clean_table_cells.
  rewrite <- list_fmap_compose. apply list_fmap_ext; intros _ t _; cbn.
  rewrite <- list_fmap_compose. apply list_fmap_ext; intros _ r _; cbn.
  rewrite <- list_fmap_compose. apply list_fmap_ext; intros _ c _; cbn.
  apply cell_texts_clean_cell.
Qed.

(** Applying the body twice to a cell gives what applying it once gives:
    a merged cell, which [row.cells] hands out once per grid column it
    spans, ends up as if visited once. *)
Lemma clean_cell_idempotent c :
  clean_cell no_props (clean_cell no_props c) = clean_cell no_props c.
Proof.
  assert (full_text (clean_cell no_props c) = full_text c) as Hft.
  { unfold full_text. f_equal. f_equal.
    pose proof (cell_texts_clean_cell no_props c) as Ht.
    unfold cell_texts in Ht. unfold p_text.
    apply (f_equal (fmap (M := list) (@concat char))) in Ht.
    by rewrite <- !list_fmap_compose in Ht. }
  rewrite (clean_cell_unfold _ (clean_cell no_props c)), Hft.
  rewrite clean_cell_unfold.
  destruct (startswith (full_text c) (lit "=")); [|done].
  unfold mark_formula. rewrite <- list_fmap_compose.
  apply list_fmap_ext; intros _ p _; cbn.
  unfold p_set_alignment, p_map_runs; cbn. f_equal.
  rewrite <- list_fmap_compose. by apply list_fmap_ext.
Qed.
End CleanTheorems.

(** C2. Whatever the cell, neither pattern matches its full text, [cleaned]
    stays [None] and lines 132-139 are never entered: the cell is left as it
    is, or, when its full text starts with an equals sign, gets the formula
    formatting; the text of every run of every paragraph is what it was, in
    the cell and so in the whole document. *)
Theorem math_branch_unreachable
    {RProps PProps : Type} (no_props : RProps) (c : cell RProps PProps) :
  re_match math_inline_re (full_text c) = None
  ∧ re_match math_block_re (full_text c) = None
  ∧ cleaned (full_text c) = None
  ∧ (clean_cell no_props c = c
     ∨ startswith (full_text c) (lit "=") = true
       ∧ clean_cell no_props c = mark_formula c)
  ∧ cell_texts (clean_cell no_props c) = cell_texts c
  ∧ ∀ doc : document RProps PProps,
      doc_texts (clean_table_cells no_props doc) = doc_texts doc.
Proof.
  split; [apply re_match_needs_leading_space|].
  split; [apply re_match_needs_leading_space|].
  split; [apply cleaned_strip|].
  split; [|split; [apply cell_texts_clean_cell | apply doc_texts_clean]].
  rewrite clean_cell_unfold. destruct (startswith _ _); auto.
Qed.

Lemma lookup_fmap_at {A B} (f : A → B) (l : list A) (i : nat) (x : A) :
  l !! i = Some x → (f <$> l) !! i = Some (f x).
Proof. intros H. by rewrite list_lookup_fmap, H. Qed.

(** Lines 143-147 on one cell: what the loop body does to a cell whose full
    text starts with an equals sign and matches neither pattern. *)
Lemma clean_cell_marks_formula
    {RProps PProps : Type} (no_props : RProps) (c : cell RProps PProps) :
  re_match math_inline_re (full_text c) = None →
  re_match math_block_re (full_text c) = None →
  startswith (full_text c) (lit "=") = true →
  Forall2
    (λ p p',
       p_alignment p' = Some LEFT ∧ p_props p' = p_props p
       ∧ Forall2
           (λ r r',
              font_name r' = Some (lit "Consolas")
              ∧ font_size r' = Some (Pt 10)
              ∧ r_text r' = r_text r ∧ r_props r' = r_props r)
           (runs p) (runs p'))
    c (clean_cell no_props c)
  ∧ cell_texts (clean_cell no_props c) = cell_texts c
  ∧ Pt 10 = 127000%Z.
Proof.
  intros H1 H2 Heq. unfold clean_cell, cleaned. rewrite H1, H2, Heq.
  split; [|split; [apply cell_texts_mark_formula | reflexivity]].
  unfold mark_formula. apply Forall2_fmap_r, Forall_Forall2_diag, Forall_forall.
  intros p _; cbn. split; [done|]. split; [done|].
  apply Forall2_fmap_r, Forall_Forall2_diag, Forall_forall. by intros r _.
Qed.

(** C7. In the document the normalizer returns, the cell at the place of a
    cell whose full text starts with an equals sign and matches neither
    pattern has the same paragraphs and runs, one for one; every run has
    the font Consolas at 10 points (127000 EMU) and its old text and other
    properties, every paragraph is left-aligned. *)
Theorem formula_cell_is_marked
    {RProps PProps : Type} (no_props : RProps)
    (doc : document RProps PProps) (i j k : nat)
    (t : table RProps PProps) (r : row RProps PProps)
    (c : cell RProps PProps) :
  doc !! i = Some t → t !! j = Some r → r !! k = Some c →
  re_match math_inline_re (full_text c) = None →
  re_match math_block_re (full_text c) = None →
  startswith (full_text c) (lit "=") = true →
  ∃ t' r' c',
    clean_table_cells no_props doc !! i = Some t'
    ∧ t' !! j = Some r'
    ∧ r' !! k = Some c'
    ∧ Forall2
        (λ p p',
           p_alignment p' = Some LEFT ∧ p_props p' = p_props p
           ∧ Forall2
               (λ r r',
                  font_name r' = Some (lit "Consolas")
                  ∧ font_size r' = Some (Pt 10)
                  ∧ r_text r' = r_text r ∧ r_props r' = r_props r)
               (runs p) (runs p'))
        c c'
    ∧ cell_texts c' = cell_texts c
    ∧ Pt 10 = 127000%Z.
Proof.
  intros Ht Hr Hc H1 H2 Heq.
  exists (fmap (M := list) (fmap (M := list) (clean_cell no_props)) t),
    (fmap (M := list) (clean_cell no_props) r), (clean_cell no_props c).
  unfold clean_table_cells.
  split; [exact (lookup_fmap_at _ doc i t Ht)|].
  split; [exact (lookup_fmap_at _ t j r Hr)|].
  split; [exact (lookup_fmap_at _ r k c Hc)|].
  by apply clean_cell_marks_formula.
Qed.

(** C8. A cell whose full text matches neither pattern and does not start
    with an equals sign is returned as it came. *)
Theorem plain_cell_unchanged
    {RProps PProps : Type} (no_props : RProps) (c : cell RProps PProps) :
  re_match math_inline_re (full_text c) = None →
  re_match math_block_re (full_text c) = None →
  startswith (full_text c) (lit "=") = false →
  clean_cell no_props c = c.
Proof. intros H1 H2 Hne. unfold clean_cell, cleaned. by rewrite H1, H2, Hne. Qed.

Lemma formula_cell_is_marked_witness :
  let c : cell unit unit :=
    [Paragraph [Run (lit "=SUM(A1:A3)") None None ()] None ()] in
  let plain : cell unit unit :=
    [Paragraph [Run (lit "total") None None ()] None ()] in
  let r : row unit unit := [plain; c] in
  let t : table unit unit := [r] in
  let doc : document unit unit := [t] in
  doc !! 0 = Some t ∧ t !! 0 = Some r ∧ r !! 1 = Some c
  ∧ re_match math_inline_re (full_text c) = None
  ∧ re_match math_block_re (full_text c) = None
  ∧ startswith (full_text c) (lit "=") = true
  ∧ ∃ t' r' c',
      clean_table_cells () doc !! 0 = Some t'
      ∧ t' !! 0 = Some r'
      ∧ r' !! 1 = Some c'
      ∧ Forall2
          (λ p p',
             p_alignment p' = Some LEFT ∧ p_props p' = p_props p
             ∧ Forall2
                 (λ r r',
                    font_name r' = Some (lit "Consolas")
                    ∧ font_size r' = Some (Pt 10)
                    ∧ r_text r' = r_text r ∧ r_props r' = r_props r)
                 (runs p) (runs p'))
          c c'
      ∧ cell_texts c' = cell_texts c
      ∧ Pt 10 = 127000%Z.
Proof.
  intros c plain r t doc.
  assert (doc !! 0 = Some t) as Ht by reflexivity.
  assert (t !! 0 = Some r) as Hr by reflexivity.
  assert (r !! 1 = Some c) as Hc by reflexivity.
  assert (re_match math_inline_re (full_text c) = None) as H1
    by (vm_compute; reflexivity).
  assert (re_match math_block_re (full_text c) = None) as H2
    by (vm_compute; reflexivity).
  assert (startswith (full_text c) (lit "=") = true) as H3
    by (vm_compute; reflexivity).
  split; [exact Ht|]. split; [exact Hr|]. split; [exact Hc|].
  split; [exact H1|]. split; [exact H2|]. split; [exact H3|].
  exact (formula_cell_is_marked () doc 0 0 1 t r c Ht Hr Hc H1 H2 H3).
Defined.

Lemma plain_cell_unchanged_witness :
  let c : cell unit unit :=
    [Paragraph [Run (lit "plain text") None None ()] None ()] in
  re_match math_inline_re (full_text c) = None
  ∧ re_match math_block_re (full_text c) = None
  ∧ startswith (full_text c) (lit "=") = false
  ∧ clean_cell () c = c.
Proof.
  intros c.
  assert (re_match math_inline_re (full_text c) = None) as H1
    by (vm_compute; reflexivity).
  assert (re_match math_block_re (full_text c) = None) as H2
    by (vm_compute; reflexivity).
  assert (startswith (full_text c) (lit "=") = false) as H3
    by (vm_compute; reflexivity).
  split; [exact H1|]. split; [exact H2|]. split; [exact H3|].
  exact (plain_cell_unchanged () c H1 H2 H3).
Defined.

(** C1 (the code departs from it). The pattern of line 115 does match the
    text with its spaces and captures what is between the dollar signs, but
    line 122 strips the text first, and the pattern asks for a whitespace
    character that is no longer there: both cells are left as they were. *)
Theorem math_cells_left_unchanged :
  let padded : cell unit unit :=
    [Paragraph [Run (lit " $x+1$ ") None None ()] None ()] in
  let display : cell unit unit :=
    [Paragraph [Run (lit "$$a=b$$") None None ()] None ()] in
  group1 <$> re_match math_inline_re (lit " $x+1$ ") = Some (lit "x+1")
  ∧ full_text padded = lit "$x+1$"
  ∧ cleaned (full_text padded) = None
  ∧ clean_cell () padded = padded
  ∧ cleaned (full_text display) = None
  ∧ clean_cell () display = display.
Proof. repeat split; vm_compute; reflexivity. Qed.

(** C6 (the code departs from it). The leading whitespace of the pattern of
    line 115 is not optional: exactly one whitespace character has to come
    before the dollar sign. The pattern worded by the specification matches
    the bare text and captures its inside; the pattern of the source matches
    with one space in front, and with none or two it does not, so the cell
    keeps its dollar signs. *)
Theorem inline_pattern_needs_one_space :
  let bare : cell unit unit :=
    [Paragraph [Run (lit "$x$") None None ()] None ()] in
  group1 <$> re_match spec_inline_re (lit "$x$") = Some (lit "x")
  ∧ re_match math_inline_re (lit "$x$") = None
  ∧ group1 <$> re_match math_inline_re (lit " $x$") = Some (lit "x")
  ∧ re_match math_inline_re (lit "  $x$") = None
  ∧ cleaned (full_text bare) = None
  ∧ clean_cell () bare = bare.
Proof. repeat split; vm_compute; reflexivity. Qed.

(** C9. The preprocessor: the output, read without the labels, is the
    output of the loop of the source; its lines that are not separators are
    the input lines in their order, each as it was (its newline apart) or
    with two spaces appended; its separators are empty lines. The
    normalizer: tables, rows and cells stay where they are, each cell being
    the old one through the loop body, with as many paragraphs and the same
    text. *)
Theorem order_preserved
    {RProps PProps : Type} (no_props : RProps)
    (lines : list str) (doc : document RProps PProps) :
  (preprocess_tagged lines).*2 = preprocess_lines lines
  ∧ (omap source_of (preprocess_tagged lines)).*1 = seq 0 (length lines)
  ∧ Forall2
      (λ line e, e = rstrip_nl line ∨ e = rstrip_nl line ++ lit "  ")
      lines (omap source_of (preprocess_tagged lines)).*2
  ∧ (∀ l, (Separator, l) ∈ preprocess_tagged lines → l = [])
  ∧ Forall2
      (Forall2
         (Forall2
            (λ c c',
               c' = clean_cell no_props c
               ∧ length c' = length c
               ∧ cell_texts c' = cell_texts c)))
      doc (clean_table_cells no_props doc).
Proof.
  split; [apply preprocess_tagged_erase|]. split; [|split; [|split]].
  - rewrite sources_of_tagged, <- list_fmap_compose.
    unfold enumerate. rewrite <- (fst_zip (seq 0 (length lines)) lines) at 2
      by (rewrite length_seq; lia).
    by apply list_fmap_ext.
  - rewrite sources_of_tagged, <- list_fmap_compose.
    apply Forall2_fmap_r, Forall2_same_length_lookup. split.
    + unfold enumerate. rewrite length_zip_with, length_seq. lia.
    + intros j line il Hline Hil.
      rewrite (lookup_enumerate _ _ _ Hline) in Hil. simplify_eq; cbn.
      apply emitted_cases.
  - intros l. rewrite preprocess_tagged_chunks.
    apply chunks_separators_blank.
  - unfold clean_table_cells.
    apply Forall2_fmap_r, Forall_Forall2_diag, Forall_forall; intros t _.
    apply Forall2_fmap_r, Forall_Forall2_diag, Forall_forall; intros r _.
    apply Forall2_fmap_r, Forall_Forall2_diag, Forall_forall; intros c _.
    cbn. split; [done|].
    split; [apply clean_cell_length | apply cell_texts_clean_cell].
Qed.

(* ===================================================================== *)
(** ** The driver *)
(* ===================================================================== *)

Section MainFacts.
Context {RProps PProps : Type}.
Variable no_props : RProps.
Variable check_pandoc : bool.
Variable pandoc :
  option (file RProps PProps) → option string
  → Z * option (document RProps PProps).
Variable tmp_name : string.
Variable splitext_root : string → string.

Implicit Types (w : world RProps PProps) (path : string).

Lemma bind_run {A B} (m : M A) (k : A → M B) w :
  (m ≫= k) w
  = match m w with
    | (inr a, w') => k a w'
    | (inl e, w') => (inl e, w')
    end.
Proof. reflexivity. Qed.

(** The [finally] block of lines 181-185 returns, whatever the world it
    starts in, and leaves no file under the path. *)
Lemma guarded_unlink_run path w :
  ∃ w',
    try_except (unlink path)
      (λ e, if is_Exception e then Some (ret ()) else None) w
    = (inr (), w')
    ∧ files w' !! path = None
    ∧ stdout w' = stdout w
    ∧ calls w' = calls w ++ [Unlink path].
Proof.
  unfold try_except, unlink, log, read, remove, raise, ret.
  repeat (rewrite bind_run; cbn).
  destruct (files w !! path) eqn:Hf; cbn; eexists; (split; [reflexivity|]);
    cbn; [by rewrite lookup_delete_eq | done].
Qed.

Lemma try_finally_run {A} (m : M A) (fin : M unit) w w'' :
  fin (m w).2 = (inr (), w'') → try_finally m fin w = ((m w).1, w'').
Proof. unfold try_finally. destruct (m w) as [r w']; cbn. by intros ->. Qed.

Lemma preprocess_markdown_run path w t :
  files w !! path = Some (Text t) →
  preprocess_markdown tmp_name path w
  = (inr tmp_name,
     World (<[tmp_name := Text (preprocess_text (readlines t))]> (files w))
           (stdout w) (calls w ++ [Preprocess path])).
Proof.
  intros Hf. unfold preprocess_markdown, log, read, write, ret.
  repeat (rewrite bind_run; cbn). by rewrite Hf.
Qed.

Lemma convert_failure_run input_md output_docx reference_doc w :
  (pandoc (files w !! input_md) reference_doc).1 ≠ 0%Z →
  ∃ w',
    convert_md_to_docx pandoc input_md output_docx reference_doc w
    = (inl (CalledProcessError (pandoc (files w !! input_md) reference_doc).1),
       w')
    ∧ stdout w' = stdout w
    ∧ calls w' = calls w ++ [Convert input_md output_docx].
Proof.
  intros Hrc. unfold convert_md_to_docx, log, read, write, ret, raise.
  repeat (rewrite bind_run; cbn).
  destruct (pandoc (files w !! input_md) reference_doc) as [rc written];
    cbn in *.
  rewrite bind_run.
  destruct written; cbn; rewrite bool_decide_eq_false_2 by done;
    eexists; (split; [reflexivity|]); done.
Qed.

(** C10. Once the input is read and the converter is found, the temporary
    file is gone when [main] ends, and [os.unlink] was called on it,
    whatever the converter and the normalizer do. When the converter
    exits with a status that is not 0, [main] prints the failure message
    and the error, ends in [SystemExit(1)], and the steps entered are the
    preprocessor, the converter and the unlink: the normalizer is not. *)
Theorem converter_failure_cleans_up
    (input_md : string) (output_arg reference_doc : option string)
    (w : world RProps PProps) (t : str) :
  files w !! input_md = Some (Text t) →
  check_pandoc = true →
  let pre := Text (preprocess_text (readlines t)) in
  let result :=
    main no_props check_pandoc pandoc tmp_name splitext_root
      input_md output_arg reference_doc w in
  (files result.2 !! tmp_name = None ∧ Unlink tmp_name ∈ calls result.2)
  ∧ ((pandoc (Some pre) reference_doc).1 ≠ 0%Z →
     result.1 = inl (SystemExit 1)
     ∧ exit_status result.1 = 1%Z
     ∧ stdout result.2
       = stdout w
         ++ [Line "Pandoc conversion failed.";
             Detail (CalledProcessError (pandoc (Some pre) reference_doc).1)]
     ∧ calls result.2
       = calls w
         ++ [Preprocess input_md;
             Convert tmp_name (default_output splitext_root input_md output_arg);
             Unlink tmp_name]).
Proof.
  intros Hin Hp pre result. subst result.
  unfold main. rewrite bind_run. unfold isfile, read, ret.
  rewrite bind_run. cbn [fst snd]. rewrite Hin.
  rewrite bool_decide_eq_true_2 by eauto. rewrite Hp. cbn [negb].
  rewrite bind_run, (preprocess_markdown_run _ _ _ Hin).
  match goal with
  | |- context [try_finally ?m ?f ?w1] =>
      destruct (guarded_unlink_run tmp_name (m w1).2)
        as (w'' & Hfin & Hfiles & Hout & Hcalls);
      rewrite (try_finally_run m f w1 w'' Hfin);
      set (body := m) in *; set (w1' := w1) in *
  end.
  cbn [fst snd]. split.
  - split; [done|]. rewrite Hcalls. apply elem_of_app. right.
    by apply list_elem_of_singleton.
  - intros Hrc.
    destruct (convert_failure_run tmp_name
                (default_output splitext_root input_md output_arg)
                reference_doc w1')
      as (w2 & Hconv & Hout2 & Hcalls2).
    { subst w1'; cbn [files]. by rewrite lookup_insert_eq. }
    assert (files w1' !! tmp_name = Some pre) as Hpre
      by (subst w1'; cbn [files]; by rewrite lookup_insert_eq).
    rewrite Hpre in Hconv.
    assert (body w1'
            = (inl (SystemExit 1),
               World (files w2)
                     ((stdout w2 ++ [Line "Pandoc conversion failed."])
                      ++ [Detail (CalledProcessError
                                    (pandoc (Some pre) reference_doc).1)])
                     (calls w2))) as Hbody.
    { subst body. unfold try_except. rewrite bind_run, Hconv. cbn.
      unfold print, sys_exit, raise. by repeat (rewrite bind_run; cbn). }
    rewrite Hbody in *. cbn [fst snd] in *.
    split; [done|]. split; [done|]. split.
    + rewrite Hout; cbn. rewrite Hout2. subst w1'; cbn.
      by rewrite <- app_assoc.
    + rewrite Hcalls; cbn. rewrite Hcalls2. subst w1'; cbn.
      by rewrite <- !app_assoc.
Qed.
End MainFacts.

Lemma converter_failure_cleans_up_witness :
  let pandoc : option (file unit unit) → option string
               → Z * option (document unit unit) := λ _ _, (1%Z, None) in
  let w : world unit unit :=
    World {[ "in.md"%string := Text (lit "# t") ]} [] [] in
  let result :=
    main () true pandoc "tmp.md" (λ p, p) "in.md" None None w in
  files w !! "in.md"%string = Some (Text (lit "# t"))
  ∧ true = true
  ∧ (pandoc (Some (Text (preprocess_text (readlines (lit "# t"))))) None).1
    ≠ 0%Z
  ∧ (files result.2 !! "tmp.md"%string = None
     ∧ Unlink "tmp.md" ∈ calls result.2)
  ∧ result.1 = inl (SystemExit 1)
  ∧ exit_status result.1 = 1%Z
  ∧ stdout result.2
    = [Line "Pandoc conversion failed."; Detail (CalledProcessError 1)]
  ∧ calls result.2
    = [Preprocess "in.md"; Convert "tmp.md" "in.md.docx"; Unlink "tmp.md"].
Proof.
  intros pandoc w result.
  assert (files w !! "in.md"%string = Some (Text (lit "# t"))) as H1
    by (vm_compute; reflexivity).
  assert ((pandoc (Some (Text (preprocess_text (readlines (lit "# t")))))
             None).1 ≠ 0%Z) as H3 by (cbn; lia).
  split; [exact H1|]. split; [reflexivity|]. split; [exact H3|].
  destruct (converter_failure_cleans_up
              () true pandoc "tmp.md" (λ p, p) "in.md" None None w
              (lit "# t") H1 eq_refl) as [Hgen Hspec].
  split; [exact Hgen|]. exact (Hspec H3).
Defined.

Example main_success :
  let doc : document unit unit :=
    [[[[Paragraph [Run (lit "=A1") None None ()] None ()]]]] in
  let pandoc : option (file unit unit) → option string
               → Z * option (document unit unit) := λ _ _, (0%Z, Some doc) in
  let w : world unit unit :=
    World {[ "in.md"%string := Text (lit "# t") ]} [] [] in
  let result :=
    main () true pandoc "tmp.md" (λ _, "in"%string) "in.md" None None w in
  exit_status result.1 = 0%Z
  ∧ stdout result.2 = [Line "Converted: in.md -> in.docx"]
  ∧ calls result.2
    = [Preprocess "in.md"; Convert "tmp.md" "in.docx"; CleanCells "in.docx";
       Unlink "tmp.md"]
  ∧ files result.2 !! "tmp.md"%string = None
  ∧ files result.2 !! "in.docx"%string
    = Some (Word [[[[Paragraph
                       [Run (lit "=A1") (Some (lit "Consolas")) (Some 127000%Z) ()]
                       (Some LEFT) ()]]]]).
Proof. repeat split; vm_compute; reflexivity. Qed.

Example main_missing_input :
  let pandoc : option (file unit unit) → option string
               → Z * option (document unit unit) := λ _ _, (0%Z, None) in
  let w : world unit unit := World ∅ [] [] in
  let result :=
    main () true pandoc "tmp.md" (λ p, p) "in.md" None None w in
  exit_status result.1 = 1%Z
  ∧ stdout result.2 = [Line "Input file not found: in.md"]
  ∧ calls result.2 = [].
Proof. repeat split; vm_compute; reflexivity. Qed.

(* ===================================================================== *)
(** ** More on the line preprocessor *)
(* ===================================================================== *)

Section PreMore.
Implicit Types (lines : list str) (line cur next : str) (i : nat).

Lemma chunks_length lines pb ps :
  length ps ≤ length (chunks lines pb ps)
  ∧ length (chunks lines pb ps) + (if pb then length ps `min` 1 else 0)
    ≤ 2 * length ps.
Proof.
  revert pb. induction ps as [|il ps IH]; intros pb; cbn [chunks length].
  { destruct pb; cbn; lia. }
  destruct (IH (is_empty (emitted lines il.1 il.2))) as [IH1 IH2].
  rewrite length_app. unfold chunk.
  destruct (separates pb il.2) eqn:Hsep.
  - apply separates_true in Hsep as (-> & _). cbn.
    destruct (is_empty _); lia.
  - cbn. destruct pb, (is_empty _); lia.
Qed.

Lemma chunks_block_start_preceded lines pb ps k i line :
  ps !! k = Some (i, line) →
  is_block_start (rstrip_nl line) = true → rstrip_nl line ≠ [] →
  ∃ pre post,
    chunks lines pb ps = pre ++ (Source i, rstrip_nl line) :: post
    ∧ k ≤ length pre
    ∧ match last pre with
      | Some x => x.2 = []
      | None => pb = true
      end.
Proof.
  intros Hk Hb Hne. revert pb k Hk.
  induction ps as [|il ps IH]; intros pb k Hk; [done|].
  cbn [chunks]. destruct k as [|k]; cbn in Hk.
  - simplify_eq. unfold chunk, separates, emitted; cbn [fst snd].
    rewrite Hb. apply is_empty_false in Hne as ->. cbn [negb andb].
    destruct pb; cbn [negb].
    + exists [], (chunks lines false ps). repeat split; cbn; lia.
    + exists [(Separator, [])], (chunks lines false ps).
      repeat split; cbn; lia.
  - destruct (IH (is_empty (emitted lines il.1 il.2)) k Hk)
      as (pre & post & -> & Hlen & Hlast).
    exists (chunk lines pb il ++ pre), post.
    split; [by rewrite <- app_assoc|]. split.
    + rewrite length_app. unfold chunk. rewrite length_app. cbn. lia.
    + destruct pre as [|x pre _] using rev_ind.
      * rewrite app_nil_r. unfold chunk. rewrite last_snoc. cbn.
        cbn in Hlast. by apply is_empty_true.
      * rewrite app_assoc, last_snoc. by rewrite last_snoc in Hlast.
Qed.
End PreMore.

(** X1. The loop emits at least one line per input line and at most one
    separator per input line, none for the first: for [n] input lines the
    output has between [n] and [2n - 1] lines. *)
Theorem preprocess_lines_length (lines : list str) :
  length lines ≤ length (preprocess_lines lines)
  ∧ length (preprocess_lines lines) ≤ 2 * length lines - 1.
Proof.
  rewrite <- preprocess_tagged_erase, length_fmap, preprocess_tagged_chunks.
  destruct (chunks_length lines true (enumerate lines)) as [H1 H2].
  assert (length (enumerate lines) = length lines) as Hlen.
  { unfold enumerate. rewrite length_zip_with, length_seq. lia. }
  rewrite Hlen in *. lia.
Qed.

(** X2. A block-start line (heading, quote, fence, display math, blank) is
    emitted as it came, its newline apart, whatever it holds and whatever
    follows it. *)
Theorem block_start_line_unchanged (lines : list str) (i : nat) (line : str) :
  lines !! i = Some line →
  is_block_start (rstrip_nl line) = true →
  omap source_of (preprocess_tagged lines) !! i = Some (i, rstrip_nl line).
Proof.
  intros Hi Hb. rewrite (lookup_source _ _ _ Hi). unfold emitted.
  by rewrite Hb.
Qed.

Lemma block_start_line_unchanged_witness :
  let lines := [lit "# cost: $5, about" ++ [nl]; lit "text" ++ [nl]] in
  lines !! 0 = Some (lit "# cost: $5, about" ++ [nl])
  ∧ is_block_start (rstrip_nl (lit "# cost: $5, about" ++ [nl])) = true
  ∧ omap source_of (preprocess_tagged lines) !! 0
    = Some (0, rstrip_nl (lit "# cost: $5, about" ++ [nl])).
Proof.
  intros lines.
  assert (lines !! 0 = Some (lit "# cost: $5, about" ++ [nl])) as H1
    by reflexivity.
  assert (is_block_start (rstrip_nl (lit "# cost: $5, about" ++ [nl])) = true)
    as H2 by (vm_compute; reflexivity).
  split; [exact H1|]. split; [exact H2|].
  exact (block_start_line_unchanged lines 0 _ H1 H2).
Defined.

(** X3. The last line of the input never gets the two spaces: past the end
    the next line reads as empty. *)
Theorem last_line_unchanged (lines : list str) (i : nat) (line : str) :
  lines !! i = Some line →
  i + 1 = length lines →
  omap source_of (preprocess_tagged lines) !! i = Some (i, rstrip_nl line).
Proof.
  intros Hi Hlast. rewrite (lookup_source _ _ _ Hi). unfold emitted.
  destruct (is_block_start (rstrip_nl line)); [done|].
  unfold next_line. rewrite decide_False by lia.
  unfold dense_rule. cbn. by rewrite andb_false_r.
Qed.

Lemma last_line_unchanged_witness :
  let lines := [lit "first" ++ [nl]; lit "a $x$ b"] in
  lines !! 1 = Some (lit "a $x$ b")
  ∧ 1 + 1 = length lines
  ∧ omap source_of (preprocess_tagged lines) !! 1
    = Some (1, rstrip_nl (lit "a $x$ b")).
Proof.
  intros lines.
  assert (lines !! 1 = Some (lit "a $x$ b")) as H1 by reflexivity.
  assert (1 + 1 = length lines) as H2 by reflexivity.
  split; [exact H1|]. split; [exact H2|].
  exact (last_line_unchanged lines 1 _ H1 H2).
Defined.

(** X4. In the output, every non-empty block-start line but the first line
    of the input comes right after an empty line: the separator, or an
    empty line that was there. *)
Theorem block_start_after_blank (lines : list str) (i : nat) (line : str) :
  lines !! i = Some line →
  0 < i →
  is_block_start (rstrip_nl line) = true →
  rstrip_nl line ≠ [] →
  ∃ pre o post,
    preprocess_tagged lines
    = pre ++ (o, []) :: (Source i, rstrip_nl line) :: post.
Proof.
  intros Hi Hpos Hb Hne. rewrite preprocess_tagged_chunks.
  destruct (chunks_block_start_preceded lines true (enumerate lines) i i line
              (lookup_enumerate _ _ _ Hi) Hb Hne)
    as (pre & post & -> & Hlen & Hlast).
  destruct pre as [|[o x] pre _] using rev_ind; [cbn in Hlen; lia|].
  rewrite last_snoc in Hlast. cbn in Hlast. subst x.
  exists pre, o, post. by rewrite <- app_assoc.
Qed.

Lemma block_start_after_blank_witness :
  let lines := [lit "text" ++ [nl]; lit "> quote" ++ [nl]] in
  lines !! 1 = Some (lit "> quote" ++ [nl])
  ∧ 0 < 1
  ∧ is_block_start (rstrip_nl (lit "> quote" ++ [nl])) = true
  ∧ rstrip_nl (lit "> quote" ++ [nl]) ≠ []
  ∧ ∃ pre o post,
      preprocess_tagged lines
      = pre ++ (o, []) :: (Source 1, rstrip_nl (lit "> quote" ++ [nl])) :: post.
Proof.
  intros lines.
  assert (lines !! 1 = Some (lit "> quote" ++ [nl])) as H1 by reflexivity.
  assert (0 < 1) as H2 by lia.
  assert (is_block_start (rstrip_nl (lit "> quote" ++ [nl])) = true) as H3
    by (vm_compute; reflexivity).
  assert (rstrip_nl (lit "> quote" ++ [nl]) ≠ []) as H4
    by (vm_compute; discriminate).
  split; [exact H1|]. split; [exact H2|]. split; [exact H3|].
  split; [exact H4|].
  exact (block_start_after_blank lines 1 _ H1 H2 H3 H4).
Defined.

Lemma no_separator_before_table_row_witness :
  let lines := [lit "text" ++ [nl]; lit "# h" ++ [nl]] in
  preprocess_tagged lines
  = [(Source 0, lit "text")] ++ (Separator, []) :: (Source 1, lit "# h") :: []
  ∧ is_table_row (lit "# h") = false.
Proof.
  intros lines.
  assert (preprocess_tagged lines
          = [(Source 0, lit "text")]
            ++ (Separator, []) :: (Source 1, lit "# h") :: []) as H
    by (vm_compute; reflexivity).
  split; [exact H|].
  exact (no_separator_before_table_row lines _ _ _ _ _ H).
Defined.

(* ===================================================================== *)
(** ** More on the patterns and the cell normalizer *)
(* ===================================================================== *)

Section ReFacts.
Implicit Types (p : char → bool) (k : str → option marks) (s a b : str).

(** What a greedy repetition found: a run of characters of the class, and
    the rest of the pattern matching after it. *)
Lemma greedy_Some p k s m :
  greedy p k s = Some m →
  ∃ a b, s = a ++ b ∧ forallb p a = true ∧ k b = Some m.
Proof.
  induction s as [|c s IH]; cbn.
  - intros Hk. by exists [], [].
  - destruct (p c) eqn:Hc; [|intros Hk; by exists [], (c :: s)].
    destruct (greedy p k s) as [m'|] eqn:Hg.
    + intros [= ->]. destruct (IH eq_refl) as (a & b & -> & Ha & Hk).
      exists (c :: a), b. cbn. by rewrite Hc, Ha.
    + intros Hk. by exists [], (c :: s).
Qed.

(** What is enough for it to find something. *)
Lemma greedy_is_Some p k a b :
  forallb p a = true → is_Some (k b) → is_Some (greedy p k (a ++ b)).
Proof.
  intros Ha Hk. induction a as [|c a IH]; cbn.
  - destruct b as [|c b]; cbn; [done|].
    destruct (p c); [|done]. by destruct (greedy p k b).
  - cbn in Ha. apply andb_prop in Ha as [-> Ha].
    destruct (IH Ha) as [m ->]. by eexists.
Qed.

Lemma exec_tail_spaces whole m s m' :
  exec whole [Star Space; Eol] m s = Some m' →
  forallb isspace s = true ∧ m' = m.
Proof.
  cbn [exec]. intros (a & b & -> & Ha & Hb)%greedy_Some.
  change (forallb isspace a = true) in Ha.
  rewrite forallb_app, Ha. cbn [andb].
  destruct b as [|c [|??]]; [by simplify_eq | | done].
  destruct (N.eqb_spec c nl) as [->|]; [|done]. by simplify_eq.
Qed.

Lemma exec_tail_spaces_is_Some whole m s :
  forallb isspace s = true → is_Some (exec whole [Star Space; Eol] m s).
Proof.
  intros Hs. cbn [exec]. rewrite <- (app_nil_r s).
  apply greedy_is_Some; [done|]. by eexists.
Qed.

Lemma group1_marks (g b : str) :
  group1 (Marks (Some (g ++ b)) (Some b)) = g.
Proof.
  unfold group1; cbn. rewrite length_app.
  replace (length g + length b - length b) with (length g) by lia.
  by rewrite take_app_length.
Qed.

(** The strings the pattern of line 115 matches, and what it captures. *)
Lemma inline_match_shape s m :
  re_match math_inline_re s = Some m →
  ∃ c g ws,
    s = c :: dollar :: g ++ dollar :: ws
    ∧ isspace c = true ∧ g ≠ []
    ∧ forallb (in_cls Dot) g = true
    ∧ forallb isspace ws = true
    ∧ group1 m = g.
Proof.
  unfold re_match, math_inline_re. cbn [exec].
  rewrite bool_decide_eq_true_2 by done.
  destruct s as [|c s]; cbn [in_cls]; [done|].
  destruct (isspace c) eqn:Hc; [|done].
  destruct s as [|d s]; cbn [in_cls]; [done|].
  destruct (N.eqb_spec dollar d) as [<-|]; [|done].
  cbn [m_open m_close]. destruct s as [|x s]; cbn [in_cls]; [done|].
  destruct (negb (x =? nl)%N) eqn:Hx; [|done].
  intros (a & b & -> & Ha & Hb)%greedy_Some. cbn [exec m_open m_close] in Hb.
  destruct b as [|d b]; [done|]. cbn [in_cls] in Hb.
  destruct (N.eqb_spec dollar d) as [<-|]; [|done].
  apply (exec_tail_spaces []) in Hb as [Hws ->].
  exists c, (x :: a), b. repeat split; try done.
  - cbn. by rewrite Hx, Ha.
  - apply (group1_marks (x :: a) (dollar :: b)).
Qed.

Lemma inline_shape_matches (c : char) (g ws : str) :
  isspace c = true → g ≠ [] →
  forallb (in_cls Dot) g = true → forallb isspace ws = true →
  is_Some (re_match math_inline_re (c :: dollar :: g ++ dollar :: ws)).
Proof.
  intros Hc Hg Hdot Hws. unfold re_match, math_inline_re. cbn [exec].
  rewrite bool_decide_eq_true_2 by done. cbn [in_cls]. rewrite Hc.
  rewrite N.eqb_refl. destruct g as [|x g]; [done|].
  cbn in Hdot. apply andb_prop in Hdot as [Hx Hdot].
  cbn [app]. cbn [in_cls]. rewrite Hx.
  apply greedy_is_Some; [done|]. cbn [exec in_cls]. rewrite N.eqb_refl.
  by apply (exec_tail_spaces_is_Some []).
Qed.

(** The same for the pattern of line 116. *)
Lemma block_match_shape s m :
  re_match math_block_re s = Some m →
  ∃ c g ws,
    s = c :: dollar :: dollar :: g ++ dollar :: dollar :: ws
    ∧ isspace c = true ∧ g ≠ []
    ∧ forallb (in_cls Dot) g = true
    ∧ forallb isspace ws = true
    ∧ group1 m = g.
Proof.
  unfold re_match, math_block_re. cbn [exec].
  rewrite bool_decide_eq_true_2 by done.
  destruct s as [|c s]; cbn [in_cls]; [done|].
  destruct (isspace c) eqn:Hc; [|done].
  destruct s as [|d s]; cbn [in_cls]; [done|].
  destruct (N.eqb_spec dollar d) as [<-|]; [|done].
  destruct s as [|d' s]; cbn [in_cls]; [done|].
  destruct (N.eqb_spec dollar d') as [<-|]; [|done].
  cbn [m_open m_close]. destruct s as [|x s]; cbn [in_cls]; [done|].
  destruct (negb (x =? nl)%N) eqn:Hx; [|done].
  intros (a & b & -> & Ha & Hb)%greedy_Some. cbn [exec m_open m_close] in Hb.
  destruct b as [|d b]; [done|]. cbn [in_cls] in Hb.
  destruct (N.eqb_spec dollar d) as [<-|]; [|done].
  destruct b as [|d' b]; [done|]. cbn [in_cls] in Hb.
  destruct (N.eqb_spec dollar d') as [<-|]; [|done].
  apply (exec_tail_spaces []) in Hb as [Hws ->].
  exists c, (x :: a), b. repeat split; try done.
  - cbn. by rewrite Hx, Ha.
  - apply (group1_marks (x :: a) (dollar :: dollar :: b)).
Qed.
End ReFacts.

Section ReMore.
Implicit Types (s a b w g ws : str).

Lemma dollar_not_in_spaces a w : forallb isspace (a ++ dollar :: w) = false.
Proof.
  rewrite forallb_app. cbn. change (isspace dollar) with false.
  by rewrite andb_false_r.
Qed.

(** A dollar sign followed by whitespace only is the last one: the string
    splits there in one way. *)
Lemma split_at_last_dollar a a' w w' :
  forallb isspace w = true → forallb isspace w' = true →
  a ++ dollar :: w = a' ++ dollar :: w' → a = a' ∧ w = w'.
Proof.
  intros Hw Hw'. revert a'.
  induction a as [|x a IH]; intros [|x' a']; cbn; intros Heq.
  - by simplify_eq.
  - injection Heq as <- ->. by rewrite dollar_not_in_spaces in Hw.
  - injection Heq as -> <-. by rewrite dollar_not_in_spaces in Hw'.
  - injection Heq as -> Heq. by destruct (IH _ Heq) as [-> ->].
Qed.

Lemma inline_shape_captures (c : char) g ws :
  isspace c = true → g ≠ [] →
  forallb (in_cls Dot) g = true → forallb isspace ws = true →
  ∃ m, re_match math_inline_re (c :: dollar :: g ++ dollar :: ws) = Some m
       ∧ group1 m = g.
Proof.
  intros Hc Hg Hdot Hws.
  destruct (inline_shape_matches c g ws Hc Hg Hdot Hws) as [m Hm].
  exists m. split; [done|].
  apply inline_match_shape in Hm as (c' & g' & ws' & Heq & _ & _ & _ & Hws' & ->).
  injection Heq as _ Heq.
  by destruct (split_at_last_dollar _ _ _ _ Hws Hws' Heq) as [-> _].
Qed.
End ReMore.

(** X6. The strings the inline pattern of line 115 matches are those made
    of one whitespace character, a dollar sign, one or more characters other
    than the newline, a dollar sign and whitespace to the end; group 1 is
    what stands between the two dollar signs. *)
Theorem inline_pattern_language (s : str) :
  (∀ m, re_match math_inline_re s = Some m →
     ∃ c g ws,
       s = c :: dollar :: g ++ dollar :: ws
       ∧ isspace c = true ∧ g ≠ []
       ∧ forallb (in_cls Dot) g = true
       ∧ forallb isspace ws = true
       ∧ group1 m = g)
  ∧ (∀ c g ws,
       s = c :: dollar :: g ++ dollar :: ws →
       isspace c = true → g ≠ [] →
       forallb (in_cls Dot) g = true →
       forallb isspace ws = true →
       ∃ m, re_match math_inline_re s = Some m ∧ group1 m = g).
Proof.
  split; [apply inline_match_shape|].
  intros c g ws -> Hc Hg Hdot Hws. by apply inline_shape_captures.
Qed.

(** X7. The block pattern of line 116 never decides anything: a string it
    matches is matched by the inline pattern too, which is asked first, and
    what is kept is the inline capture: the block capture with a dollar sign
    left at each end. *)
Theorem block_pattern_shadowed (s : str) (m : marks) :
  re_match math_block_re s = Some m →
  ∃ m',
    re_match math_inline_re s = Some m'
    ∧ group1 m' = dollar :: group1 m ++ [dollar]
    ∧ cleaned s = Some (strip (dollar :: group1 m ++ [dollar])).
Proof.
  intros (c & g & ws & -> & Hc & Hg & Hdot & Hws & ->)%block_match_shape.
  destruct (inline_shape_captures c (dollar :: g ++ [dollar]) ws)
    as (m' & Hm' & Hgroup); [done | done | | done |].
  { cbn. rewrite forallb_app, Hdot. reflexivity. }
  replace (c :: dollar :: (dollar :: g ++ [dollar]) ++ dollar :: ws)
    with (c :: dollar :: dollar :: g ++ dollar :: dollar :: ws) in Hm'
    by (cbn; by rewrite <- app_assoc).
  exists m'. split; [done|]. split; [done|].
  rewrite <- Hgroup. by apply cleaned_inline_first.
Qed.

Lemma block_pattern_shadowed_witness :
  ∃ m,
    re_match math_block_re (lit " $$a=b$$") = Some m
    ∧ ∃ m',
        re_match math_inline_re (lit " $$a=b$$") = Some m'
        ∧ group1 m' = dollar :: group1 m ++ [dollar]
        ∧ cleaned (lit " $$a=b$$")
          = Some (strip (dollar :: group1 m ++ [dollar])).
Proof.
  destruct (re_match math_block_re (lit " $$a=b$$")) as [m|] eqn:Hm;
    [|vm_compute in Hm; discriminate].
  exists m. split; [reflexivity|].
  exact (block_pattern_shadowed (lit " $$a=b$$") m Hm).
Defined.

(** X8. Running the normalizer on a document it has been run on changes
    nothing more; so a merged cell, which [row.cells] hands out once per
    grid column it spans, ends up as if visited once. *)
Theorem clean_table_cells_idempotent
    {RProps PProps : Type} (no_props : RProps) (doc : document RProps PProps) :
  clean_table_cells no_props (clean_table_cells no_props doc)
  = clean_table_cells no_props doc.
Proof.
  unfold clean_table_cells.
  rewrite <- list_fmap_compose. apply list_fmap_ext; intros _ t _; cbn.
  rewrite <- list_fmap_compose. apply list_fmap_ext; intros _ r _; cbn.
  rewrite <- list_fmap_compose. apply list_fmap_ext; intros _ c _; cbn.
  apply clean_cell_idempotent.
Qed.

(* ===================================================================== *)
(** ** More on the driver *)
(* ===================================================================== *)

Section JudgeFacts.
Context {RProps PProps : Type}.
Implicit Types (w : world RProps PProps) (paths : list string).
Implicit Types (E : exn → Prop).

Local Abbreviation M := (M (RProps := RProps) (PProps := PProps)).

Lemma to_ret {A} paths (a : A) : touches_only paths (ret a : M A).
Proof. by intros w path _. Qed.

Lemma to_raise {A} paths e : touches_only paths (raise e : M A).
Proof. by intros w path _. Qed.

Lemma to_print paths x : touches_only paths (print x : M unit).
Proof. by intros w path _. Qed.

Lemma to_log paths c : touches_only paths (log c : M unit).
Proof. by intros w path _. Qed.

Lemma to_read paths p : touches_only paths (read p : M _).
Proof. by intros w path _. Qed.

Lemma to_write paths p f : p ∈ paths → touches_only paths (write p f : M unit).
Proof.
  intros Hp w path Hpath; cbn. apply lookup_insert_ne. by intros ->.
Qed.

Lemma to_remove paths p : p ∈ paths → touches_only paths (remove p : M unit).
Proof.
  intros Hp w path Hpath; cbn. apply lookup_delete_ne. by intros ->.
Qed.

Lemma to_bind {A B} paths (m : M A) (k : A → M B) :
  touches_only paths m → (∀ a, touches_only paths (k a)) →
  touches_only paths (m ≫= k).
Proof.
  intros Hm Hk w path Hpath. rewrite bind_run.
  specialize (Hm w path Hpath). destruct (m w) as [[e|a] w']; cbn in *;
    [done|]. by rewrite (Hk a w' path Hpath).
Qed.

Lemma to_bind_returned {A B} paths (Q : A → Prop) (m : M A) (k : A → M B) :
  touches_only paths m → returns_only Q m →
  (∀ a, Q a → touches_only paths (k a)) →
  touches_only paths (m ≫= k).
Proof.
  intros Hm HQ Hk w path Hpath. rewrite bind_run.
  specialize (Hm w path Hpath). specialize (HQ w).
  destruct (m w) as [[e|a] w']; cbn in *; [done|].
  by rewrite (Hk a (HQ a eq_refl) w' path Hpath).
Qed.

Lemma to_try_except {A} paths (m : M A) h :
  touches_only paths m →
  (∀ e handler, h e = Some handler → touches_only paths handler) →
  touches_only paths (try_except m h).
Proof.
  intros Hm Hh w path Hpath. unfold try_except.
  specialize (Hm w path Hpath). destruct (m w) as [[e|a] w']; cbn in *;
    [|done].
  destruct (h e) as [handler|] eqn:He; [|done].
  by rewrite (Hh e handler He w' path Hpath).
Qed.

Lemma to_try_finally {A} paths (m : M A) fin :
  touches_only paths m → touches_only paths fin →
  touches_only paths (try_finally m fin).
Proof.
  intros Hm Hfin w path Hpath. unfold try_finally.
  specialize (Hm w path Hpath). destruct (m w) as [r w']; cbn in *.
  specialize (Hfin w' path Hpath).
  destruct (fin w') as [[e|[]] w'']; cbn in *; congruence.
Qed.

Lemma ro_weaken {A} E E' (m : M A) :
  raises_only E m → (∀ e, E e → E' e) → raises_only E' m.
Proof. intros Hm HE w e He. eauto. Qed.

Lemma ro_ret {A} E (a : A) : raises_only E (ret a : M A).
Proof. by intros w e. Qed.

Lemma ro_raise {A} E e : E e → raises_only E (raise e : M A).
Proof. intros He w e'; cbn. by intros [= <-]. Qed.

Lemma ro_print E x : raises_only E (print x : M unit).
Proof. by intros w e. Qed.

Lemma ro_log E c : raises_only E (log c : M unit).
Proof. by intros w e. Qed.

Lemma ro_read E p : raises_only E (read p : M _).
Proof. by intros w e. Qed.

Lemma ro_write E p f : raises_only E (write p f : M unit).
Proof. by intros w e. Qed.

Lemma ro_remove E p : raises_only E (remove p : M unit).
Proof. by intros w e. Qed.

Lemma ro_bind {A B} E (m : M A) (k : A → M B) :
  raises_only E m → (∀ a, raises_only E (k a)) → raises_only E (m ≫= k).
Proof.
  intros Hm Hk w e. rewrite bind_run. specialize (Hm w).
  destruct (m w) as [[e'|a] w']; cbn in *.
  - intros [= <-]. by apply Hm.
  - apply Hk.
Qed.

Lemma ro_try_except {A} E0 E (m : M A) h :
  raises_only E0 m →
  (∀ e, E0 e → match h e with
                | Some handler => raises_only E handler
                | None => E e
                end) →
  raises_only E (try_except m h).
Proof.
  intros Hm Hh w e. unfold try_except. specialize (Hm w).
  destruct (m w) as [[e'|a] w']; cbn in *; [|done].
  specialize (Hh e' (Hm e' eq_refl)).
  destruct (h e') as [handler|]; [apply Hh|]. by intros [= <-].
Qed.

Lemma ro_try_finally {A} E (m : M A) fin :
  raises_only E m → raises_only E fin → raises_only E (try_finally m fin).
Proof.
  intros Hm Hfin w e. unfold try_finally. specialize (Hm w).
  destruct (m w) as [r w']; cbn in *. specialize (Hfin w').
  destruct (fin w') as [[e'|[]] w'']; cbn in *.
  - intros [= <-]. by apply Hfin.
  - intros ->. by apply Hm.
Qed.
End JudgeFacts.

Ltac to_step :=
  first
    [ apply to_ret | apply to_raise | apply to_print | apply to_log
    | apply to_read
    | apply to_write; set_solver
    | apply to_remove; set_solver
    | apply to_bind; [|intros ?]
    | apply to_try_finally
    | apply to_try_except;
      [|let He := fresh in
        intros [] ? He; cbn in He; simplify_eq]
    | match goal with
      | |- touches_only _ (if ?b then _ else _) => destruct b
      | |- touches_only _ (match ?x with _ => _ end) => destruct x
      end ].

Ltac ro_step :=
  first
    [ apply ro_ret | apply ro_print | apply ro_log | apply ro_read
    | apply ro_write | apply ro_remove
    | apply ro_raise; by eauto
    | apply ro_bind; [|intros ?]
    | apply ro_try_finally
    | match goal with
      | |- raises_only _ (if ?b then _ else _) => destruct b
      | |- raises_only _ (match ?x with _ => _ end) => destruct x
      end ].

Section MainMore.
Context {RProps PProps : Type}.
Variable no_props : RProps.
Variable check_pandoc : bool.
Variable pandoc :
  option (file RProps PProps) → option string
  → Z * option (document RProps PProps).
Variable tmp_name : string.
Variable splitext_root : string → string.

Implicit Types (w : world RProps PProps) (path : string).

Lemma preprocess_markdown_returns in_path :
  returns_only (λ a, a = tmp_name)
    (preprocess_markdown (RProps := RProps) (PProps := PProps)
       tmp_name in_path).
Proof.
  intros w a. unfold preprocess_markdown, log, read, write, ret, raise.
  repeat (rewrite bind_run; cbn).
  destruct (files w !! in_path) as [[t|d]|]; cbn; by intros [= <-].
Qed.

Lemma main_touches_only input_md output_arg reference_doc :
  touches_only [tmp_name; default_output splitext_root input_md output_arg]
    (main no_props check_pandoc pandoc tmp_name splitext_root
       input_md output_arg reference_doc).
Proof.
  unfold main. apply to_bind; [unfold isfile; repeat to_step|].
  intros found. destruct (negb found); [unfold sys_exit; repeat to_step|].
  destruct (negb check_pandoc); [unfold sys_exit; repeat to_step|].
  apply (to_bind_returned _ (λ a, a = tmp_name));
    [unfold preprocess_markdown; repeat to_step
    |apply preprocess_markdown_returns|].
  intros pre_md ->.
  unfold convert_md_to_docx, clean_table_cells_at, unlink, sys_exit.
  repeat to_step.
Qed.

(** The [finally] block swallows what [os.unlink] raises. *)
Lemma guarded_unlink_raises_nothing path :
  raises_only (λ _, False)
    (try_except (unlink path)
       (λ e, if is_Exception e then Some (ret ()) else None)
     : M (RProps := RProps) (PProps := PProps) unit).
Proof.
  apply (ro_try_except (λ e, ∃ what, e = OtherException what)).
  - unfold unlink. repeat ro_step.
  - intros e [what ->]; cbn. apply ro_ret.
Qed.

Lemma main_raises_only input_md output_arg reference_doc :
  raises_only (λ e, e = SystemExit 1 ∨ ∃ what, e = OtherException what)
    (main no_props check_pandoc pandoc tmp_name splitext_root
       input_md output_arg reference_doc).
Proof.
  unfold main. apply ro_bind; [unfold isfile; repeat ro_step|].
  intros found. destruct (negb found); [unfold sys_exit; repeat ro_step|].
  destruct (negb check_pandoc); [unfold sys_exit; repeat ro_step|].
  apply ro_bind; [unfold preprocess_markdown; repeat ro_step|].
  intros pre_md. apply ro_try_finally.
  - apply (ro_try_except
             (λ e, (∃ rc, e = CalledProcessError rc) ∨ ∃ what, e = OtherException what)).
    + unfold convert_md_to_docx, clean_table_cells_at. repeat ro_step.
    + intros e [[rc ->]|[what ->]]; [|by eauto].
      unfold sys_exit. repeat ro_step.
  - eapply ro_weaken; [apply guarded_unlink_raises_nothing|done].
Qed.
End MainMore.

Section MainExtras.
Context {RProps PProps : Type}.
Variable no_props : RProps.
Variable check_pandoc : bool.
Variable pandoc :
  option (file RProps PProps) → option string
  → Z * option (document RProps PProps).
Variable tmp_name : string.
Variable splitext_root : string → string.

Implicit Types (w : world RProps PProps) (path : string).

Lemma guarded_unlink_touches_only path :
  touches_only [path]
    (try_except (unlink path)
       (λ e, if is_Exception e then Some (ret ()) else None)
     : M (RProps := RProps) (PProps := PProps) unit).
Proof. unfold unlink. repeat to_step. Qed.

(** X9. When the input path is no file, or the converter is not installed,
    [main] prints one message (the missing input first, if both), raises
    [SystemExit(1)] and has done nothing else: no step of the pipeline is
    entered and no file is created, changed or removed. *)
Theorem main_early_exit
    (input_md : string) (output_arg reference_doc : option string)
    (w : world RProps PProps) :
  files w !! input_md = None ∨ check_pandoc = false →
  main no_props check_pandoc pandoc tmp_name splitext_root
    input_md output_arg reference_doc w
  = (inl (SystemExit 1),
     World (files w)
       (stdout w
        ++ [Line (match files w !! input_md with
                  | Some _ => "Error: pandoc not found. Please install pandoc from https://pandoc.org/installing.html"
                  | None => "Input file not found: " +:+ input_md
                  end)])
       (calls w)).
Proof.
  intros Hearly. unfold main. rewrite bind_run. unfold isfile, read, ret.
  rewrite bind_run. cbn [fst snd].
  destruct (files w !! input_md) as [f|] eqn:Hf.
  - destruct Hearly as [?| ->]; [done|].
    rewrite bool_decide_eq_true_2 by eauto. cbn [negb].
    unfold print, sys_exit, raise. by rewrite bind_run.
  - rewrite bool_decide_eq_false_2 by (by intros [? ?]). cbn [negb].
    unfold print, sys_exit, raise. by rewrite bind_run.
Qed.

(** X10. When the input is text, the converter is installed and exits
    with status 0 having written a document, and the output path is not the
    temporary one: [main] returns, prints the confirmation, has entered the
    four steps in order, the output path holds the converted document as
    the normalizer leaves it, and the temporary file is gone. *)
Theorem main_success_run
    (input_md : string) (output_arg reference_doc : option string)
    (w : world RProps PProps) (t : str) (d : document RProps PProps) :
  files w !! input_md = Some (Text t) →
  check_pandoc = true →
  pandoc (Some (Text (preprocess_text (readlines t)))) reference_doc
  = (0%Z, Some d) →
  default_output splitext_root input_md output_arg ≠ tmp_name →
  let output_docx := default_output splitext_root input_md output_arg in
  let result :=
    main no_props check_pandoc pandoc tmp_name splitext_root
      input_md output_arg reference_doc w in
  result.1 = inr ()
  ∧ exit_status result.1 = 0%Z
  ∧ stdout result.2
    = stdout w
      ++ [Line ("Converted: " +:+ input_md +:+ " -> " +:+ output_docx)]
  ∧ calls result.2
    = calls w
      ++ [Preprocess input_md; Convert tmp_name output_docx;
          CleanCells output_docx; Unlink tmp_name]
  ∧ files result.2 !! output_docx
    = Some (Word (clean_table_cells no_props d))
  ∧ files result.2 !! tmp_name = None.
Proof.
  intros Hin Hp Hrun Hne output_docx result. subst result.
  unfold main. rewrite bind_run. unfold isfile, read, ret.
  rewrite bind_run. cbn [fst snd]. rewrite Hin.
  rewrite bool_decide_eq_true_2 by eauto. rewrite Hp. cbn [negb].
  rewrite bind_run, (preprocess_markdown_run tmp_name _ _ _ Hin).
  fold output_docx.
  match goal with
  | |- context [try_finally ?m ?f ?w1] =>
      destruct (guarded_unlink_run tmp_name (m w1).2)
        as (w'' & Hfin & Hfiles & Hout & Hcalls);
      rewrite (try_finally_run m f w1 w'' Hfin);
      set (body := m) in *; set (w1' := w1) in *
  end.
  assert (body w1'
          = (inr (),
             World (<[output_docx := Word (clean_table_cells no_props d)]>
                      (<[output_docx := Word d]> (files w1')))
                   (stdout w1'
                    ++ [Line ("Converted: " +:+ input_md +:+ " -> "
                              +:+ output_docx)])
                   ((calls w1' ++ [Convert tmp_name output_docx])
                    ++ [CleanCells output_docx]))) as Hbody.
  { subst body. unfold try_except, convert_md_to_docx, clean_table_cells_at,
      log, read, write, print, ret.
    repeat (rewrite bind_run; cbn [fst snd files stdout calls]).
    subst w1'; cbn [files stdout calls]. rewrite lookup_insert_eq, Hrun.
    repeat (rewrite bind_run; cbn [fst snd files stdout calls]).
    rewrite bool_decide_eq_true_2 by done.
    repeat (rewrite bind_run; cbn [fst snd files stdout calls]).
    rewrite lookup_insert_eq.
    by repeat (rewrite bind_run; cbn [fst snd files stdout calls]). }
  rewrite Hbody in *. cbn [fst snd files stdout calls] in *.
  split; [done|]. split; [done|]. split; [by rewrite Hout|].
  split; [rewrite Hcalls; subst w1'; cbn; by rewrite <- !app_assoc|].
  split; [|done].
  match type of Hfin with
  | ?fin ?w2 = _ =>
      pose proof (guarded_unlink_touches_only tmp_name w2 output_docx) as Hkeep
  end.
  rewrite Hfin in Hkeep. cbn [fst snd files] in Hkeep.
  rewrite Hkeep by (by intros ?%list_elem_of_singleton).
  by rewrite lookup_insert_eq.
Qed.

(** X11. Whatever the converter does and however [main] ends, the only
    files it creates, changes or removes are the temporary file and the
    output document: every other path, the input among them, holds what it
    held. *)
Theorem main_leaves_other_files
    (input_md : string) (output_arg reference_doc : option string)
    (w : world RProps PProps) (path : string) :
  path ≠ tmp_name →
  path ≠ default_output splitext_root input_md output_arg →
  files (main no_props check_pandoc pandoc tmp_name splitext_root
           input_md output_arg reference_doc w).2 !! path
  = files w !! path.
Proof.
  intros Htmp Hout. apply main_touches_only.
  rewrite !not_elem_of_cons. repeat split; [done | done | apply not_elem_of_nil].
Qed.

Variable parse_args : list string → parsed.

(** X12. Whatever the command line, the converter and the files: a
    [CalledProcessError] never leaves the script, and its exit status is
    0, 1 or 2; it is 2 only when the argument parser refuses the command
    line, and once the arguments are parsed the script returns, raises
    [SystemExit(1)], or ends in an exception of the reading, the
    normalizing or the temporary file, with status 1. *)
Theorem script_exit_status (argv : list string) (w : world RProps PProps) :
  let result :=
    main_argv no_props check_pandoc pandoc tmp_name splitext_root
      parse_args argv w in
  (∀ returncode, result.1 ≠ inl (CalledProcessError returncode))
  ∧ (exit_status result.1 = 0%Z ∨ exit_status result.1 = 1%Z
     ∨ exit_status result.1 = 2%Z)
  ∧ (exit_status result.1 = 2%Z → parse_args argv = UsageError)
  ∧ (∀ input_md output_docx reference_doc,
       parse_args argv = Args input_md output_docx reference_doc →
       result.1 = inr ()
       ∨ result.1 = inl (SystemExit 1)
       ∨ ∃ what, result.1 = inl (OtherException what)).
Proof.
  intros result. subst result. unfold main_argv.
  destruct (parse_args argv) as [input_md output_docx reference_doc| |text].
  - pose proof (main_raises_only no_props check_pandoc pandoc tmp_name
                  splitext_root input_md output_docx reference_doc w)
      as Hraise.
    destruct (main _ _ _ _ _ _ _ _ w) as [[e|[]] w']; cbn [fst] in *.
    + destruct (Hraise e eq_refl) as [->|[what ->]]; cbn.
      * repeat split; try done; eauto.
      * repeat split; try done; eauto.
    + cbn. repeat split; try done; eauto.
  - cbn. repeat split; try done; eauto.
  - cbn. repeat split; try done; eauto.
Qed.
End MainExtras.

Lemma main_early_exit_witness :
  let pandoc : option (file unit unit) → option string
               → Z * option (document unit unit) := λ _ _, (0%Z, None) in
  let w : world unit unit :=
    World {[ "in.md"%string := Text (lit "# t") ]} [] [Unlink "old"] in
  (files w !! "in.md"%string = None ∨ false = false)
  ∧ main () false pandoc "tmp.md" (λ p, p) "in.md" None None w
    = (inl (SystemExit 1),
       World (files w)
         (stdout w
          ++ [Line (match files w !! "in.md"%string with
                    | Some _ => "Error: pandoc not found. Please install pandoc from https://pandoc.org/installing.html"
                    | None => "Input file not found: " +:+ "in.md"
                    end)])
         (calls w)).
Proof.
  intros pandoc w.
  assert (files w !! "in.md"%string = None ∨ false = false) as H
    by (right; reflexivity).
  split; [exact H|].
  exact (main_early_exit () false pandoc "tmp.md" (λ p, p) "in.md" None None w H).
Defined.

Lemma main_success_run_witness :
  let doc : document unit unit :=
    [[[[Paragraph [Run (lit "=A1") None None ()] None ()]]]] in
  let pandoc : option (file unit unit) → option string
               → Z * option (document unit unit) := λ _ _, (0%Z, Some doc) in
  let w : world unit unit :=
    World {[ "in.md"%string := Text (lit "# t") ]} [] [] in
  let output_docx := default_output (λ _, "in"%string) "in.md" None in
  let result :=
    main () true pandoc "tmp.md" (λ _, "in"%string) "in.md" None None w in
  files w !! "in.md"%string = Some (Text (lit "# t"))
  ∧ true = true
  ∧ pandoc (Some (Text (preprocess_text (readlines (lit "# t"))))) None
    = (0%Z, Some doc)
  ∧ output_docx ≠ "tmp.md"%string
  ∧ result.1 = inr ()
  ∧ exit_status result.1 = 0%Z
  ∧ stdout result.2
    = stdout w ++ [Line ("Converted: " +:+ "in.md" +:+ " -> " +:+ output_docx)]
  ∧ calls result.2
    = calls w
      ++ [Preprocess "in.md"; Convert "tmp.md" output_docx;
          CleanCells output_docx; Unlink "tmp.md"]
  ∧ files result.2 !! output_docx = Some (Word (clean_table_cells () doc))
  ∧ files result.2 !! "tmp.md"%string = None.
Proof.
  intros doc pandoc w output_docx result.
  assert (files w !! "in.md"%string = Some (Text (lit "# t"))) as H1
    by (vm_compute; reflexivity).
  assert (pandoc (Some (Text (preprocess_text (readlines (lit "# t"))))) None
          = (0%Z, Some doc)) as H3 by reflexivity.
  assert (output_docx ≠ "tmp.md"%string) as H4 by (vm_compute; discriminate).
  split; [exact H1|]. split; [reflexivity|]. split; [exact H3|].
  split; [exact H4|].
  exact (main_success_run () true pandoc "tmp.md" (λ _, "in"%string)
           "in.md" None None w (lit "# t") doc H1 eq_refl H3 H4).
Defined.

Lemma main_leaves_other_files_witness :
  let pandoc : option (file unit unit) → option string
               → Z * option (document unit unit) := λ _ _, (1%Z, Some []) in
  let w : world unit unit :=
    World {[ "in.md"%string := Text (lit "# t") ]} [] [] in
  "in.md"%string ≠ "tmp.md"%string
  ∧ "in.md"%string ≠ default_output (λ _, "in"%string) "in.md" None
  ∧ files (main () true pandoc "tmp.md" (λ _, "in"%string)
             "in.md" None None w).2 !! "in.md"%string
    = files w !! "in.md"%string.
Proof.
  intros pandoc w.
  assert ("in.md"%string ≠ "tmp.md"%string) as H1 by discriminate.
  assert ("in.md"%string ≠ default_output (λ _, "in"%string) "in.md" None)
    as H2 by (vm_compute; discriminate).
  split; [exact H1|]. split; [exact H2|].
  exact (main_leaves_other_files () true pandoc "tmp.md" (λ _, "in"%string)
           "in.md" None None w "in.md" H1 H2).
Defined.

(* ===================================================================== *)
(** ** The preprocessor on its own output *)
(* ===================================================================== *)

Section PreIdempotent.
Implicit Types (lines l : list str) (line cur next s : str) (p : char → bool).

Lemma next_line_app pre line rest :
  next_line (pre ++ line :: rest) (length pre)
  = match rest with n :: _ => rstrip_nl n | [] => [] end.
Proof.
  unfold next_line. rewrite length_app. cbn [length].
  destruct rest as [|n rest]; cbn [length].
  - by rewrite decide_False by lia.
  - rewrite decide_True by lia. f_equal.
    apply list_lookup_total_correct.
    rewrite lookup_app_r by lia.
    by replace (length pre + 1 - length pre) with 1 by lia.
Qed.

Lemma chunks_loop_from l pre pb :
  (chunks (pre ++ l) pb (zip (seq (length pre) (length l)) l)).*2 = loop_from pb l.
Proof.
  revert pre pb. induction l as [|line rest IH]; intros pre pb; [done|].
  cbn [length seq zip zip_with chunks loop_from fst snd].
  rewrite fmap_app. unfold chunk at 1, emitted; cbn [fst snd].
  rewrite next_line_app.
  replace (pre ++ line :: rest) with ((pre ++ [line]) ++ rest)
    by (by rewrite <- app_assoc).
  specialize (IH (pre ++ [line])). rewrite length_app in IH. cbn in IH.
  replace (length pre + 1) with (S (length pre)) in IH by lia.
  rewrite IH. by destruct (separates pb line).
Qed.

Lemma preprocess_lines_loop_from lines : preprocess_lines lines = loop_from true lines.
Proof.
  rewrite <- preprocess_tagged_erase, preprocess_tagged_chunks.
  apply (chunks_loop_from lines []).
Qed.

Lemma drop_while_idem p s : drop_while p (drop_while p s) = drop_while p s.
Proof.
  destruct (drop_while_head p s) as [-> | (c & r & -> & Hc)]; [done|].
  cbn. by rewrite Hc.
Qed.

Lemma drop_while_app_all p a b :
  forallb p a = true → drop_while p (a ++ b) = drop_while p b.
Proof.
  induction a as [|c a IH]; cbn; [done|].
  intros [-> Ha]%andb_prop. by apply IH.
Qed.

Lemma drop_while_all p a : forallb p a = true → drop_while p a = [].
Proof.
  intros Ha. rewrite <- (app_nil_r a). by rewrite drop_while_app_all.
Qed.

Lemma drop_while_nil p s : drop_while p s = [] → forallb p s = true.
Proof.
  induction s as [|c s IH]; cbn; [done|].
  destruct (p c); [exact IH | done].
Qed.

Lemma drop_while_app_stop p s b c r :
  drop_while p s = c :: r → drop_while p (s ++ b) = c :: r ++ b.
Proof.
  induction s as [|x s IH]; cbn; [done|].
  destruct (p x); [exact IH|]. by intros [= -> ->].
Qed.

Lemma forallb_reverse p a : forallb p (reverse a) = forallb p a.
Proof.
  induction a as [|c a IH]; [done|].
  rewrite reverse_cons, forallb_app, IH. cbn.
  by destruct (forallb p a), (p c).
Qed.

Lemma rstrip_by_idem p s : rstrip_by p (rstrip_by p s) = rstrip_by p s.
Proof.
  unfold rstrip_by. by rewrite reverse_involutive, drop_while_idem.
Qed.

Lemma rstrip_by_app_all p s ws :
  forallb p ws = true → rstrip_by p (s ++ ws) = rstrip_by p s.
Proof.
  intros Hws. unfold rstrip_by. rewrite reverse_app.
  by rewrite drop_while_app_all by (by rewrite forallb_reverse).
Qed.

Lemma rstrip_nl_app_spaces s : rstrip_nl (s ++ lit "  ") = s ++ lit "  ".
Proof.
  unfold rstrip_nl, rstrip_by. rewrite reverse_app.
  change (reverse (lit "  ")) with [space; space].
  change (drop_while (N.eqb nl) ([space; space] ++ reverse s))
    with (space :: space :: reverse s).
  rewrite !reverse_cons, reverse_involutive, <- app_assoc. reflexivity.
Qed.

(** Whitespace at the end of a line does not count for [strip]. *)
Lemma strip_app_spaces s ws :
  forallb isspace ws = true → strip (s ++ ws) = strip s.
Proof.
  intros Hws. unfold strip, lstrip_by.
  destruct (drop_while isspace s) as [|c r] eqn:Hs.
  - apply drop_while_nil in Hs.
    by rewrite drop_while_app_all, (drop_while_all _ _ Hws).
  - rewrite (drop_while_app_stop _ _ _ _ _ Hs).
    by apply (rstrip_by_app_all isspace (c :: r)).
Qed.

Lemma is_block_start_app_spaces s :
  is_block_start (s ++ lit "  ") = is_block_start s.
Proof. unfold is_block_start. by rewrite strip_app_spaces. Qed.

(** The rule of lines 72-74 applied to its own result, when the line that
    now follows is empty wherever the first next line was empty or a block
    start. *)
Lemma dense_rule_again cur next next' :
  (is_empty cur = false →
   is_empty next = true ∨ startswith_any (strip next) next_markers = true →
   next' = []) →
  dense_rule (dense_rule cur next) next' = dense_rule cur next.
Proof.
  intros Hnext.
  destruct (is_empty cur) eqn:Hc.
  { unfold dense_rule. rewrite Hc. cbn. by rewrite Hc. }
  destruct (dense cur && negb (endswith cur (lit "  "))) eqn:Hb.
  2:{ assert (∀ x, dense_rule cur x = cur) as Hkeep.
      { intros x. unfold dense_rule. rewrite Hb. by destruct (_ && _ && _). }
      by rewrite !Hkeep. }
  destruct (is_empty next) eqn:Hn.
  { rewrite (Hnext eq_refl) by auto. unfold dense_rule. rewrite Hn, Hc. cbn.
    by rewrite Hc. }
  destruct (startswith_any (strip next) next_markers) eqn:Hm.
  { rewrite (Hnext eq_refl) by auto. unfold dense_rule. rewrite Hn, Hm, Hc.
    cbn. by rewrite Hc. }
  assert (dense_rule cur next = cur ++ lit "  ") as ->.
  { unfold dense_rule. by rewrite Hc, Hn, Hm, Hb. }
  apply dense_rule_after_break.
Qed.

Lemma dense_rule_block_start cur next :
  is_block_start (dense_rule cur next) = is_block_start cur.
Proof.
  unfold dense_rule. destruct (_ && _ && _); [|done].
  destruct (_ && _); [|done]. apply is_block_start_app_spaces.
Qed.

Lemma rstrip_nl_dense_rule line next :
  rstrip_nl (dense_rule (rstrip_nl line) next) = dense_rule (rstrip_nl line) next.
Proof.
  unfold dense_rule. destruct (_ && _ && _); [|apply rstrip_by_idem].
  destruct (_ && _); [|apply rstrip_by_idem]. apply rstrip_nl_app_spaces.
Qed.

(** What follows a non-empty line in the output when the line after it in
    the input is empty or a block start: an empty line. *)
Lemma next_in_output rest :
  let next := match rest with n :: _ => rstrip_nl n | [] => [] end in
  is_empty next = true ∨ startswith_any (strip next) next_markers = true →
  match loop_from false rest with y :: _ => rstrip_nl y | [] => [] end = [].
Proof.
  destruct rest as [|n rest]; cbn [loop_from]; [done|]. intros Hnext.
  unfold separates.
  assert (is_block_start (rstrip_nl n) = true) as Hb.
  { rewrite is_block_start_markers. destruct Hnext as [He| ->]; [|done].
    apply is_empty_true in He as ->. reflexivity. }
  rewrite Hb. cbn [andb negb].
  destruct (is_empty (rstrip_nl n)) eqn:He; cbn [negb app]; [|done].
  apply is_empty_true in He as ->. reflexivity.
Qed.

Lemma loop_from_idempotent l pb : loop_from pb (loop_from pb l) = loop_from pb l.
Proof.
  revert pb. induction l as [|line rest IH]; intros pb; [done|].
  cbn [loop_from].
  set (cur := rstrip_nl line).
  set (next := match rest with n :: _ => rstrip_nl n | [] => [] end).
  destruct (separates pb line) eqn:Hsep.
  - apply separates_true in Hsep as (-> & Hne & Hb). fold cur in Hne, Hb.
    rewrite Hb. apply is_empty_false in Hne as Hne'. rewrite Hne'.
    cbn [app loop_from].
    change (rstrip_nl []) with ([] : str).
    change (is_block_start []) with true. cbn [is_empty].
    change (separates false []) with false. cbn [app].
    f_equal. unfold separates. cbn [negb andb]. rewrite andb_false_r.
    assert (rstrip_nl cur = cur) as -> by apply rstrip_by_idem.
    rewrite Hb, Hne'. cbn [andb app]. f_equal. apply IH.
  - cbn [app loop_from].
    set (e := if is_block_start cur then cur else dense_rule cur next).
    assert (rstrip_nl e = e) as Hfix.
    { subst e. destruct (is_block_start cur);
        [apply rstrip_by_idem | apply rstrip_nl_dense_rule]. }
    assert (is_block_start e = is_block_start cur) as Hbs.
    { subst e. destruct (is_block_start cur) eqn:Hb; [done|].
      by rewrite dense_rule_block_start. }
    rewrite Hfix, Hbs.
    assert (separates pb e = false) as ->.
    { unfold separates. rewrite Hfix, Hbs.
      unfold separates in Hsep. fold cur in Hsep.
      subst e. destruct (is_block_start cur); [exact Hsep | done]. }
    cbn [app].
    match goal with
    | |- ?x :: loop_from (is_empty ?x) _ = _ => assert (x = e) as ->
    end.
    { subst e. destruct (is_block_start cur) eqn:Hb; [done|].
      apply dense_rule_again. intros Hc Hnext.
      assert (is_empty (dense_rule cur next) = false) as ->.
      { unfold dense_rule. destruct (_ && _ && _); [|done].
        destruct (_ && _); [|done]. by destruct cur. }
      by apply next_in_output. }
    f_equal. apply IH.
Qed.

(** The loop reads its lines through [rstrip("\n")] only. *)
Lemma loop_from_rstrip l pb : loop_from pb (rstrip_nl <$> l) = loop_from pb l.
Proof.
  revert pb. induction l as [|line rest IH]; intros pb; [done|].
  cbn [fmap list_fmap loop_from]. unfold separates.
  assert (rstrip_nl (rstrip_nl line) = rstrip_nl line) as ->
    by apply rstrip_by_idem.
  rewrite IH. destruct rest as [|n rest]; [done|]. cbn [fmap list_fmap].
  by assert (rstrip_nl (rstrip_nl n) = rstrip_nl n) as ->
    by apply rstrip_by_idem.
Qed.

Lemma rstrip_nl_app_nl s : rstrip_nl (s ++ [nl]) = rstrip_nl s.
Proof. by apply rstrip_by_app_all. Qed.
End PreIdempotent.

(** X13. Fed the lines it has emitted, as they are or each with a newline
    at its end, the loop emits them again and nothing else: no further
    separator, no further hard break. *)
Theorem preprocess_lines_idempotent (lines : list str) :
  preprocess_lines (preprocess_lines lines) = preprocess_lines lines
  ∧ preprocess_lines ((λ l, l ++ [nl]) <$> preprocess_lines lines)
    = preprocess_lines lines.
Proof.
  rewrite !preprocess_lines_loop_from. split; [apply loop_from_idempotent|].
  rewrite <- loop_from_rstrip, <- list_fmap_compose.
  rewrite (list_fmap_ext _ rstrip_nl) by (intros; apply rstrip_nl_app_nl).
  rewrite loop_from_rstrip. apply loop_from_idempotent.
Qed.

(** X14. Newlines at the end of the lines do not count: the loop gives the
    same output for the lines without them, so a file whose last line has
    no newline is treated like the file with one. *)
Theorem preprocess_lines_newline_blind (lines : list str) :
  preprocess_lines (rstrip_nl <$> lines) = preprocess_lines lines.
Proof. rewrite !preprocess_lines_loop_from. apply loop_from_rstrip. Qed.
